(** * IHKScraper: bearer-token extraction and authenticated API access

    A shallow embedding of [scripts/IHKScraper/extractToken.py].

    The scraper drives two external collaborators, a Selenium Chrome driver
    and a [requests] session.  Their answers are not part of the program, so
    they are supplied by an environment [Env]: every external call receives
    the history of events so far and answers with a value or with a raised
    exception.  The methods of [IHKScraper] become functions in a small
    monad that threads the object's fields, reads the history, writes the
    events it emits and propagates exceptions. *)

From Stdlib Require Import ZArith Ascii String List Lia Bool.
From stdpp Require Import base option gmap strings list fin_maps pretty.

Import ListNotations.
Local Open Scope string_scope.
Local Open Scope Z_scope.

(** ** The bearer-token pattern

    [re.search(r'Bearer ([A-Za-z0-9\-_\.]+)', log_data)]: the leftmost
    position at which the literal [Bearer ] is followed by at least one
    character of the class; group 1 is the greedy (maximal) run of class
    characters found there. *)

Module TokenPattern.

(** Character class [[A-Za-z0-9\-_\.]]. *)
Definition is_token_char (c : ascii) : bool :=
  let n := nat_of_ascii c in
  ((65 <=? n)%nat && (n <=? 90)%nat)
  || ((97 <=? n)%nat && (n <=? 122)%nat)
  || ((48 <=? n)%nat && (n <=? 57)%nat)
  || (n =? 45)%nat || (n =? 95)%nat || (n =? 46)%nat.

(** The literal part of the pattern. *)
Definition literal : string := "Bearer ".

(** [strip_prefix p s] is [Some r] when [s = p ++ r]. *)
Fixpoint strip_prefix (p s : string) : option string :=
  match p with
  | EmptyString => Some s
  | String a p' =>
      match s with
      | EmptyString => None
      | String b s' => if Ascii.eqb a b then strip_prefix p' s' else None
      end
  end.

(** Greedy [[...]*]: the longest prefix made of class characters. *)
Fixpoint take_token (s : string) : string :=
  match s with
  | EmptyString => EmptyString
  | String c s' => if is_token_char c then String c (take_token s') else EmptyString
  end.

(** An anchored match attempt at the head of [s]; [Some] of group 1. *)
Definition match_here (s : string) : option string :=
  match strip_prefix literal s with
  | Some rest =>
      match take_token rest with
      | EmptyString => None
      | tok => Some tok
      end
  | None => None
  end.

(** [re.search]: try every start position from left to right. *)
Fixpoint search (s : string) : option string :=
  match match_here s with
  | Some tok => Some tok
  | None =>
      match s with
      | EmptyString => None
      | String _ s' => search s'
      end
  end.

(** Every character of [s] is in the class. *)
Fixpoint all_token_chars (s : string) : bool :=
  match s with
  | EmptyString => true
  | String c s' => is_token_char c && all_token_chars s'
  end.

(** [s] does not begin with a class character. *)
Definition stops_token (s : string) : bool :=
  match s with
  | EmptyString => true
  | String c _ => negb (is_token_char c)
  end.

(** The pattern occurs in [log] at offset [length pre]: the literal, then at
    least one class character [c]. *)
Definition occurs_at (pre : string) (log : string) : Prop :=
  exists c rest, is_token_char c = true /\ log = pre ++ literal ++ String c rest.

(** The pattern occurs somewhere in [log]. *)
Definition occurs (log : string) : Prop := exists pre, occurs_at pre log.

End TokenPattern.

(** ** Data model *)

(** [IHKConfig]: the dataclass of configuration settings. *)
Record IHKConfig := {
  base_url : string;
  api_base_url : string;
  username : string;
  password : string;
  ihk_nummer : string;
  organisation_nummer : string;
  headless : bool;
  window_size : string;
  user_agent : string
}.

(** The dataclass defaults; [IHKConfig(username=u, password=p)]. *)
Definition IHKConfig_default (u p : string) : IHKConfig := {|
  base_url := "https://bildung.ihk.de";
  api_base_url := "https://service.ihk.de/anwender/anwender-api/v1";
  username := u;
  password := p;
  ihk_nummer := "108";
  organisation_nummer := "560628108";
  headless := true;
  window_size := "1920,1080";
  user_agent := "Mozilla/5.0 (X11; Linux x86_64) AppleWebKit/537.36 (KHTML, like Gecko) Chrome/134.0.0.0 Safari/537.36"
|}.

(** Handles of objects owned by the browser engine. *)
Definition Driver := nat.
Definition Element := nat.

(** [selenium.webdriver.chrome.options.Options] as the scraper fills it. *)
Record Options := {
  arguments : list string;
  capabilities : list (string * list (string * string))
}.

(** The expected conditions the scraper waits for, with their locator. *)
Inductive Condition :=
| element_to_be_clickable (by_ value : string)
| presence_of_element_located (by_ value : string).

(** One record of the browser's performance log. *)
Record LogEntry := {
  level : string;
  message : string;
  timestamp : Z
}.

(** A cookie as the browser reports it; the scraper reads [name] and
    [value] only. *)
Record Cookie := {
  cookie_name : string;
  cookie_value : string;
  cookie_domain : string;
  cookie_path : string
}.

(** A dict of HTTP headers, and a cookie jar keyed by cookie name (the
    scraper sets every cookie with the default domain and path). *)
Abbreviation Headers := (gmap string string).
Abbreviation CookieJar := (gmap string string).

(** [requests.Session]: the part of it the scraper builds. *)
Record Session := { cookies : CookieJar }.

(** A parsed JSON document. *)
#[warnings="-register-all"]
Inductive Json :=
| JNull
| JBool (b : bool)
| JNum (n : Z)
| JStr (s : string)
| JArr (items : list Json)
| JObj (members : list (string * Json)).

(** [requests.Response]: status, reason phrase, final URL, body text and
    what [response.json()] gives (the decoder's message when the body is
    not JSON). *)
Record Response := {
  status_code : Z;
  reason : string;
  url : string;
  text : string;
  json : string + Json
}.

(** Exception classes that the program names or that its collaborators
    raise; [OtherException] stands for any further subclass of
    [Exception]. *)
Inductive ExnClass :=
| TimeoutException
| NoSuchElementException
| WebDriverException
| ValueError
| AttributeError
| TypeError
| RequestException
| ConnectionError
| HTTPError
| JSONDecodeError
| OtherException (name : string).

(** An exception object: its class, [str(e)], and the response attached to
    an [HTTPError]. *)
Record Exn := {
  exn_class : ExnClass;
  exn_str : string;
  exn_response : option Response
}.

(** [isinstance(e, TimeoutException)]. *)
Definition is_TimeoutException (e : Exn) : bool :=
  match exn_class e with
  | TimeoutException => true
  | _ => false
  end.

(** [isinstance(e, requests.RequestException)]. *)
Definition is_RequestException (e : Exn) : bool :=
  match exn_class e with
  | RequestException | ConnectionError | HTTPError | JSONDecodeError => true
  | _ => false
  end.

(** [isinstance(e, Exception)]: every modelled exception. *)
Definition is_Exception (e : Exn) : bool := true.

Definition newline : string := String (ascii_of_nat 10) EmptyString.

(** [ValueError(msg)]. *)
Definition mkValueError (msg : string) : Exn :=
  {| exn_class := ValueError; exn_str := msg; exn_response := None |}.

(** [WebDriverException(msg)]; selenium renders it as [Message: msg] and a
    line break. *)
Definition mkWebDriverException (msg : string) : Exn :=
  {| exn_class := WebDriverException;
     exn_str := "Message: " ++ msg ++ newline;
     exn_response := None |}.

(** Attribute access on [None]. *)
Definition mkAttributeError (attr : string) : Exn :=
  {| exn_class := AttributeError;
     exn_str := "'NoneType' object has no attribute '" ++ attr ++ "'";
     exn_response := None |}.

(** The extra keyword arguments of [api_request]: the optional [headers]
    entry and the remaining entries, which the scraper passes through
    without looking at them. *)
Record Kwargs := {
  kw_headers : option Headers;
  kw_rest : list (string * string)
}.

Definition no_kwargs : Kwargs := {| kw_headers := None; kw_rest := [] |}.

(** ** Events *)

(** Calls into the collaborators. *)
Inductive Call :=
| CSetupLogging
| CChrome (o : Options)
| CGet (d : Driver) (target : string)
| CWaitUntil (d : Driver) (timeout : Z) (c : Condition)
| CClick (el : Element)
| CSendKeys (el : Element) (keys : string)
| CFindElement (d : Driver) (by_ value : string)
| CSleep (seconds : Z)
| CGetLog (d : Driver) (kind : string)
| CGetCookies (d : Driver)
| CSaveScreenshot (d : Driver) (path : string)
| CQuit (d : Driver)
| CSessionRequest (s : Session) (method target : string) (h : Headers)
    (rest : list (string * string))
| CSessionClose (s : Session).

Inductive LogLevel := INFO | WARNING | ERROR.

(** What the program does to the outside: a call with the exception it
    raised, if any, a log record, or a [print] of a line to standard output
    with the exception it raised, if any. *)
Inductive Event :=
| ECall (c : Call) (raised : option Exn)
| ELog (lvl : LogLevel) (msg : string)
| EStdout (line : string) (raised : option Exn).

Abbreviation Trace := (list Event).

(** The collaborators.  Each operation sees the history of events that
    precede the call.  [setup_logging] is the [logging.basicConfig] call of
    [_setup_logging] with the file and stream handlers it builds (opening
    [ihk_scraper.log] can fail); [stdout_write] is [print].  [json_dumps] is
    [json.dumps] on a performance log, [json_dumps_indent] is
    [json.dumps(data, indent=2, ensure_ascii=False)] on a parsed
    document. *)
Record Env := {
  setup_logging : Trace -> Exn + unit;
  stdout_write : Trace -> string -> Exn + unit;
  chrome_new : Trace -> Options -> Exn + Driver;
  driver_get : Trace -> Driver -> string -> Exn + unit;
  wait_until : Trace -> Driver -> Z -> Condition -> Exn + Element;
  element_click : Trace -> Element -> Exn + unit;
  element_send_keys : Trace -> Element -> string -> Exn + unit;
  find_element : Trace -> Driver -> string -> string -> Exn + Element;
  get_log : Trace -> Driver -> string -> Exn + list LogEntry;
  json_dumps : list LogEntry -> string;
  json_dumps_indent : Json -> string;
  get_cookies : Trace -> Driver -> Exn + list Cookie;
  save_screenshot : Trace -> Driver -> string -> Exn + bool;
  driver_quit : Trace -> Driver -> Exn + unit;
  session_request :
    Trace -> Session -> string -> string -> Headers -> list (string * string) ->
    (Exn + Response) * CookieJar;
  session_close : Trace -> Session -> Exn + unit
}.

(** ** The scraper object and its monad *)

(** The fields of [IHKScraper] after [__init__]. *)
Record IHKScraper := {
  config : IHKConfig;
  driver : option Driver;
  session : option Session;
  bearer_token : option string
}.

(** The fields that [IHKScraper(config)] sets: the fields of a scraper that
    has been constructed.  The last statement of the constructor,
    [self._setup_logging()], can fail and is [_setup_logging] below. *)
Definition __init__ (cfg : IHKConfig) : IHKScraper :=
  {| config := cfg; driver := None; session := None; bearer_token := None |}.

(** The result of running a method: what it returned or raised, the fields
    afterwards, and the events it emitted in order. *)
Definition Outcome (A : Type) : Type := (Exn + A) * IHKScraper * Trace.

(** A method: from the fields and the history to an outcome. *)
Definition M (A : Type) : Type := IHKScraper -> Trace -> Outcome A.

Definition ret {A} (a : A) : M A := fun self h => (inr a, self, []).

Definition raise {A} (e : Exn) : M A := fun self h => (inl e, self, []).

Definition bind {A B} (m : M A) (f : A -> M B) : M B :=
  fun self h =>
    match m self h with
    | (inl e, self1, ev1) => (inl e, self1, ev1)
    | (inr a, self1, ev1) =>
        match f a self1 (h ++ ev1)%list with
        | (r, self2, ev2) => (r, self2, (ev1 ++ ev2)%list)
        end
    end.

(** [try: m  except C as e: handler e], where [catches] decides
    [isinstance(e, C)]. *)
Definition try_except {A} (catches : Exn -> bool) (m : M A) (handler : Exn -> M A) : M A :=
  fun self h =>
    match m self h with
    | (inl e, self1, ev1) =>
        if catches e then
          match handler e self1 (h ++ ev1)%list with
          | (r, self2, ev2) => (r, self2, (ev1 ++ ev2)%list)
          end
        else (inl e, self1, ev1)
    | ok => ok
    end.

Definition get_self : M IHKScraper := fun self h => (inr self, self, []).

Definition put_self (self' : IHKScraper) : M unit := fun _ h => (inr tt, self', []).

Definition raised_by {A} (r : Exn + A) : option Exn :=
  match r with
  | inl e => Some e
  | inr _ => None
  end.

(** A call into a collaborator: it is answered from the history and
    recorded. *)
Definition extern {A} (c : Call) (answer : Trace -> Exn + A) : M A :=
  fun self h => let r := answer h in (r, self, [ECall c (raised_by r)]).

(** [self.logger.<lvl>(msg)]. *)
Definition log (lvl : LogLevel) (msg : string) : M unit :=
  fun self h => (inr tt, self, [ELog lvl msg]).

(** [print(line)], answered by the standard output. *)
Definition print (line : string) (answer : Trace -> Exn + unit) : M unit :=
  fun self h => let r := answer h in (r, self, [EStdout line (raised_by r)]).

(** [try: m  finally: final]: [final] runs whatever [m] did; what it raises
    replaces the outcome of [m]. *)
Definition try_finally {A} (m : M A) (final : M unit) : M A :=
  fun self h =>
    match m self h with
    | (r, self1, ev1) =>
        match final self1 (h ++ ev1)%list with
        | (inl e, self2, ev2) => (inl e, self2, (ev1 ++ ev2)%list)
        | (inr _, self2, ev2) => (r, self2, (ev1 ++ ev2)%list)
        end
    end.

Declare Scope scraper_scope.
Delimit Scope scraper_scope with scraper.
Notation "x <- m ;; k" := (bind m (fun x => k))
  (at level 100, m at next level, right associativity) : scraper_scope.
Notation "m ;; k" := (bind m (fun _ => k))
  (at level 100, right associativity) : scraper_scope.
Local Open Scope scraper_scope.

(** [self.driver.<attr>]: the driver, or the error of using [None]. *)
Definition self_driver (attr : string) : M Driver :=
  self <- get_self ;;
  match driver self with
  | Some d => ret d
  | None => raise (mkAttributeError attr)
  end.

(** ** Helpers for Python expressions *)

(** [s[:n]] and [s[-n:]] for [n > 0]. *)
Definition py_prefix (n : nat) (s : string) : string := substring 0 n s.
Definition py_suffix (n : nat) (s : string) : string :=
  substring (String.length s - n) n s.

(** [s * n]. *)
Fixpoint py_repeat (s : string) (n : nat) : string :=
  match n with
  | O => EmptyString
  | S n' => s ++ py_repeat s n'
  end.

(** The configuration that [main] builds. *)
Definition main_config : IHKConfig :=
  IHKConfig_default "your_username_here" "your_password_here".

(** The browser options that [_setup_browser] assembles. *)
Definition browser_options (cfg : IHKConfig) : Options := {|
  arguments :=
    ((if headless cfg then ["--headless"] else []) ++
     ["--no-sandbox"; "--disable-dev-shm-usage"; "--disable-gpu";
      ("--window-size=" ++ window_size cfg)%string;
      ("--user-agent=" ++ user_agent cfg)%string])%list;
  capabilities := [("goog:loggingPrefs", [("performance", "ALL")])]
|}.

(** The headers dict literal of [api_request]. *)
Definition fixed_headers (cfg : IHKConfig) (token : string) : Headers :=
  list_to_map [
    ("Accept", "application/json");
    ("Authorization", "Bearer " ++ token);
    ("Referer", base_url cfg ++ "/");
    ("X-Bereich-Intern-Extern", "extern");
    ("X-Ex-Abb", "false");
    ("X-Ihk-Nummer", ihk_nummer cfg);
    ("X-Organisation-Nummer-Lang", organisation_nummer cfg);
    ("User-Agent", user_agent cfg)
  ].

(** [d.update(other)]: the entries of [other] win. *)
Definition dict_update (d other : Headers) : Headers := other ∪ d.

(** [value.replace(pair, '')] for the pair of a backslash and a double
    quote: every such pair is dropped, from left to right. *)
Fixpoint remove_escaped_quotes (s : string) : string :=
  match s with
  | EmptyString => EmptyString
  | String c rest =>
      match rest with
      | String c' rest' =>
          if Ascii.eqb c (ascii_of_nat 92) && Ascii.eqb c' (ascii_of_nat 34)
          then remove_escaped_quotes rest'
          else String c (remove_escaped_quotes rest)
      | EmptyString => String c EmptyString
      end
  end.

(** [value.startswith(q)] and [value.endswith(q)] for the double quote
    [q]. *)
Definition starts_with_dquote (s : string) : bool :=
  match s with
  | String c _ => Ascii.eqb c (ascii_of_nat 34)
  | EmptyString => false
  end.

Fixpoint ends_with_dquote (s : string) : bool :=
  match s with
  | EmptyString => false
  | String c EmptyString => Ascii.eqb c (ascii_of_nat 34)
  | String _ rest => ends_with_dquote rest
  end.

(** The value under which [RequestsCookieJar.set_cookie] keeps a cookie: a
    value that starts and ends with a double quote loses its backslash-quote
    pairs. *)
Definition stored_cookie_value (value : string) : string :=
  if starts_with_dquote value && ends_with_dquote value
  then remove_escaped_quotes value
  else value.

(** [jar.set(name, value)] for a string [value]: the cookie made for the name
    (with the default domain and path) replaces the one the jar had for
    it. *)
Definition jar_set (jar : CookieJar) (name value : string) : CookieJar :=
  <[name := stored_cookie_value value]> jar.

(** [response.json()]. *)
Definition response_json (r : Response) : M Json :=
  match json r with
  | inr j => ret j
  | inl msg =>
      raise {| exn_class := JSONDecodeError; exn_str := msg; exn_response := None |}
  end.

(** [response.raise_for_status()] of [requests]: an [HTTPError] carrying
    the response for the statuses 400 to 599, nothing otherwise. *)
Definition raise_for_status (r : Response) : M unit :=
  if (400 <=? status_code r) && (status_code r <? 500) then
    raise {| exn_class := HTTPError;
             exn_str := pretty (status_code r) ++ " Client Error: " ++ reason r
                        ++ " for url: " ++ url r;
             exn_response := Some r |}
  else if (500 <=? status_code r) && (status_code r <? 600) then
    raise {| exn_class := HTTPError;
             exn_str := pretty (status_code r) ++ " Server Error: " ++ reason r
                        ++ " for url: " ++ url r;
             exn_response := Some r |}
  else ret tt.

(** The three errors the scraper raises itself, each a [ValueError]. *)
Definition missing_credentials : Exn :=
  mkValueError "Username and password must be provided".
Definition token_not_found : Exn :=
  mkValueError "No bearer token found in performance logs".
Definition not_authenticated : Exn :=
  mkValueError "Must authenticate before making API requests".

(** ** The methods of [IHKScraper] *)

Section Methods.

Context (env : Env).

Definition _setup_browser : M Driver :=
  self <- get_self ;;
  let options := browser_options (config self) in
  try_except is_Exception
    (d <- extern (CChrome options) (fun h => chrome_new env h options) ;;
     log INFO "Chrome WebDriver initialized successfully" ;;
     ret d)
    (fun e =>
       log ERROR ("Failed to initialize WebDriver: " ++ exn_str e) ;;
       raise (mkWebDriverException ("Browser initialization failed: " ++ exn_str e))).

(** The locator of the consent-accept control. *)
Definition consent_button : Condition :=
  element_to_be_clickable "xpath" "//button[contains(., 'Alle akzeptieren')]".

Definition _accept_cookies : M unit :=
  try_except is_TimeoutException
    (d <- self_driver "find_element" ;;
     cookie_button <- extern (CWaitUntil d 3 consent_button)
                        (fun h => wait_until env h d 3 consent_button) ;;
     extern (CClick cookie_button) (fun h => element_click env h cookie_button) ;;
     log INFO "Cookie consent accepted")
    (fun _ => log INFO "Cookie banner not found or already accepted").

Definition login_link : Condition :=
  element_to_be_clickable "xpath" "//a[contains(., 'Jetzt anmelden!')]".
Definition username_field : Condition := presence_of_element_located "id" "username".
Definition password_field : Condition := presence_of_element_located "id" "password".

(** [self.driver.find_element("id", "kc-login").click()]. *)
Definition click_kc_login : M unit :=
  d <- self_driver "find_element" ;;
  b <- extern (CFindElement d "id" "kc-login")
         (fun h => find_element env h d "id" "kc-login") ;;
  extern (CClick b) (fun h => element_click env h b).

Definition _perform_login : M unit :=
  self <- get_self ;;
  if String.eqb (username (config self)) EmptyString
     || String.eqb (password (config self)) EmptyString
  then raise missing_credentials
  else
    try_except is_Exception
      (d <- self_driver "find_element" ;;
       link <- extern (CWaitUntil d 10 login_link)
                 (fun h => wait_until env h d 10 login_link) ;;
       extern (CClick link) (fun h => element_click env h link) ;;
       log INFO "Navigated to login page" ;;
       d <- self_driver "find_element" ;;
       ufield <- extern (CWaitUntil d 10 username_field)
                   (fun h => wait_until env h d 10 username_field) ;;
       extern (CSendKeys ufield (username (config self)))
         (fun h => element_send_keys env h ufield (username (config self))) ;;
       click_kc_login ;;
       d <- self_driver "find_element" ;;
       pfield <- extern (CWaitUntil d 10 password_field)
                   (fun h => wait_until env h d 10 password_field) ;;
       extern (CSendKeys pfield (password (config self)))
         (fun h => element_send_keys env h pfield (password (config self))) ;;
       click_kc_login ;;
       log INFO "Login sequence completed")
      (fun e =>
         if is_TimeoutException e then
           log ERROR ("Login failed due to timeout: " ++ exn_str e) ;; raise e
         else
           log ERROR ("Login failed: " ++ exn_str e) ;; raise e).

Definition _extract_bearer_token : M string :=
  try_except is_Exception
    (self <- get_self ;;
     d <- self_driver "get" ;;
     let page := base_url (config self) ++ "/service/berufsbilder-check" in
     extern (CGet d page) (fun h => driver_get env h d page) ;;
     extern (CSleep 5) (fun _ => inr tt) ;;
     d <- self_driver "get_log" ;;
     logs <- extern (CGetLog d "performance") (fun h => get_log env h d "performance") ;;
     let log_data := json_dumps env logs in
     log INFO ("Extracted " ++ pretty (String.length log_data)
               ++ " characters of log data") ;;
     match TokenPattern.search log_data with
     | Some token =>
         log INFO ("Bearer token extracted: " ++ py_prefix 15 token ++ "..."
                   ++ py_suffix 15 token) ;;
         ret token
     | None => raise token_not_found
     end)
    (fun e => log ERROR ("Token extraction failed: " ++ exn_str e) ;; raise e).

Definition _setup_session : M Session :=
  d <- self_driver "get_cookies" ;;
  browser_cookies <- extern (CGetCookies d) (fun h => get_cookies env h d) ;;
  let session :=
    {| cookies := fold_left (fun jar c => jar_set jar (cookie_name c) (cookie_value c))
                    browser_cookies ∅ |} in
  log INFO "Requests session configured with browser cookies" ;;
  ret session.

Definition _save_error_screenshot : M unit :=
  try_except is_Exception
    (self <- get_self ;;
     match driver self with
     | Some d =>
         let screenshot_path := "error_screenshot.png" in
         extern (CSaveScreenshot d screenshot_path)
           (fun h => save_screenshot env h d screenshot_path) ;;
         log INFO ("Error screenshot saved: " ++ screenshot_path)
     | None => ret tt
     end)
    (fun e => log WARNING ("Could not save screenshot: " ++ exn_str e)).

Definition set_driver (d : Driver) : M unit :=
  self <- get_self ;;
  put_self {| config := config self; driver := Some d;
              session := session self; bearer_token := bearer_token self |}.

Definition set_bearer_token (t : string) : M unit :=
  self <- get_self ;;
  put_self {| config := config self; driver := driver self;
              session := session self; bearer_token := Some t |}.

Definition set_session (s : Session) : M unit :=
  self <- get_self ;;
  put_self {| config := config self; driver := driver self;
              session := Some s; bearer_token := bearer_token self |}.

Definition authenticate : M unit :=
  try_except is_Exception
    (d <- _setup_browser ;;
     set_driver d ;;
     self <- get_self ;;
     d <- self_driver "get" ;;
     extern (CGet d (base_url (config self)))
       (fun h => driver_get env h d (base_url (config self))) ;;
     log INFO "Homepage loaded" ;;
     _accept_cookies ;;
     _perform_login ;;
     token <- _extract_bearer_token ;;
     set_bearer_token token ;;
     s <- _setup_session ;;
     set_session s ;;
     log INFO "Authentication completed successfully")
    (fun e =>
       log ERROR ("Authentication failed: " ++ exn_str e) ;;
       _save_error_screenshot ;;
       raise e).

(** [self.session.request(method, url, headers=headers, **kwargs)]; the
    session keeps the cookies the exchange leaves in its jar. *)
Definition session_request_call (s : Session) (method target : string)
    (h : Headers) (rest : list (string * string)) : M Response :=
  fun self hist =>
    match session_request env hist s method target h rest with
    | (r, jar) =>
        (r,
         {| config := config self; driver := driver self;
            session := Some {| cookies := jar |};
            bearer_token := bearer_token self |},
         [ECall (CSessionRequest s method target h rest) (raised_by r)])
    end.

Definition api_request (endpoint method : string) (kwargs : Kwargs) : M Response :=
  self <- get_self ;;
  match session self, bearer_token self with
  | Some sess, Some (String _ _ as token) =>
      let target := api_base_url (config self) ++ "/" ++ endpoint in
      let headers := fixed_headers (config self) token in
      let headers :=
        match kw_headers kwargs with
        | Some extra => dict_update headers extra
        | None => headers
        end in
      try_except is_RequestException
        (response <- session_request_call sess method target headers (kw_rest kwargs) ;;
         log INFO ("API request to " ++ endpoint ++ ": Status "
                   ++ pretty (status_code response)) ;;
         ret response)
        (fun e => log ERROR ("API request failed: " ++ exn_str e) ;; raise e)
  | _, _ => raise not_authenticated
  end.

(** A method that falls off its end returns [None], here [JNull]. *)
Definition get_berufsbilder_check : M Json :=
  response <- api_request "anwender/berufsbilder/check" "GET" no_kwargs ;;
  if status_code response =? 200 then
    log INFO "Successfully retrieved berufsbilder data" ;;
    response_json response
  else
    log ERROR ("API error " ++ pretty (status_code response) ++ ": " ++ text response) ;;
    raise_for_status response ;;
    ret JNull.

Definition close : M unit :=
  self <- get_self ;;
  match driver self with
  | Some d =>
      extern (CQuit d) (fun h => driver_quit env h d) ;;
      log INFO "WebDriver closed"
  | None => ret tt
  end ;;
  self <- get_self ;;
  match session self with
  | Some s =>
      extern (CSessionClose s) (fun h => session_close env h s) ;;
      log INFO "Requests session closed"
  | None => ret tt
  end.

(** [self._setup_logging()], the last statement of the constructor. *)
Definition _setup_logging : M unit :=
  extern CSetupLogging (fun h => setup_logging env h).

(** [print(line)] on the standard output. *)
Definition print_line (line : string) : M unit :=
  print line (fun h => stdout_write env h line).

(** The [try ... except] part of [main]. *)
Definition main_body : M unit :=
  try_except is_Exception
    (authenticate ;;
     data <- get_berufsbilder_check ;;
     print_line (newline ++ py_repeat "=" 50) ;;
     print_line "API Response:" ;;
     print_line (py_repeat "=" 50) ;;
     print_line (json_dumps_indent env data))
    (fun e => print_line (newline ++ " Error: " ++ exn_str e)).

(** [main()].  The scraper is constructed before the [try]: when the
    constructor raises, there is no scraper and nothing is closed (the
    outcome then shows the fields set so far). *)
Definition main : Trace -> Outcome unit :=
  (_setup_logging ;; try_finally main_body close) (__init__ main_config).

End Methods.

(** ** Observations on event sequences *)

(** The browser launches among the events. *)
Definition is_launch (ev : Event) : bool :=
  match ev with
  | ECall (CChrome _) _ => true
  | _ => false
  end.

Definition launches (evs : Trace) : nat := length (List.filter is_launch evs).

(** The navigation calls among the events, as their targets in order. *)
Definition navigation_of (ev : Event) : option string :=
  match ev with
  | ECall (CGet _ target) _ => Some target
  | _ => None
  end.

Definition navigations (evs : Trace) : list string := omap navigation_of evs.

(** What the login step does to the browser: its three 10-unit waits, key
    entry and the lookups of the submit button. *)
Definition is_login_interaction (ev : Event) : bool :=
  match ev with
  | ECall (CWaitUntil _ t _) _ => t =? 10
  | ECall (CSendKeys _ _) _ => true
  | ECall (CFindElement _ _ _) _ => true
  | _ => false
  end.

(** A browser failure that ends the flow before the login step: a failed
    launch or navigation, or a consent wait or click that raised something
    other than a timeout. *)
Definition fatal_before_login (ev : Event) : bool :=
  match ev with
  | ECall (CChrome _) (Some _) => true
  | ECall (CGet _ _) (Some _) => true
  | ECall (CWaitUntil _ _ _) (Some e) => negb (is_TimeoutException e)
  | ECall (CClick _) (Some e) => negb (is_TimeoutException e)
  | _ => false
  end.

(** HTTP requests handed to the session. *)
Definition is_request (ev : Event) : bool :=
  match ev with
  | ECall (CSessionRequest _ _ _ _ _) _ => true
  | _ => false
  end.

(** The waits that raised, with their condition, timeout and exception. *)
Definition raised_wait (ev : Event) : option (Condition * Z * Exn) :=
  match ev with
  | ECall (CWaitUntil _ t c) (Some e) => Some (c, t, e)
  | _ => None
  end.

Definition raised_waits (evs : Trace) : list (Condition * Z * Exn) :=
  omap raised_wait evs.

(** ** A program logic for methods

    [sat m self h Q]: running [m] on the fields [self] after the history [h]
    gives a result, fields and events that satisfy [Q]. *)
Definition sat {A} (m : M A) (self : IHKScraper) (h : Trace)
    (Q : Exn + A -> IHKScraper -> Trace -> Prop) : Prop :=
  match m self h with
  | (r, self', evs) => Q r self' evs
  end.

(** ** Statements of the specification that the code is compared with *)

(** Fail-fast on missing credentials as the specification words it: the
    missing-credentials error, with no browser launch and no navigation
    among the events of the call. *)
Definition fails_before_any_browser_interaction
    (env : Env) (self : IHKScraper) (h : Trace) : Prop :=
  exists self' evs,
    authenticate env self h = (inl missing_credentials, self', evs) /\
    launches evs = 0%nat /\ navigations evs = [].

(** A complete AuthSession as the specification words it: a non-empty
    token and a non-empty cookie jar. *)
Definition complete_auth_session (s : Session) (token : option string) : Prop :=
  (exists t, token = Some t /\ t <> EmptyString) /\ cookies s <> ∅.

(** Every request issued by a call of [api_request] comes from a complete
    AuthSession. *)
Definition requests_only_from_complete_session
    (env : Env) (endpoint method : string) (kwargs : Kwargs)
    (self : IHKScraper) (h : Trace) : Prop :=
  forall r self' evs s m u hd rest o,
    api_request env endpoint method kwargs self h = (r, self', evs) ->
    In (ECall (CSessionRequest s m u hd rest) o) evs ->
    complete_auth_session s (bearer_token self).

(** [close] as the specification words it: called twice in succession, it
    raises no error. *)
Definition close_twice_raises_no_error
    (env : Env) (self : IHKScraper) (h : Trace) : Prop :=
  exists self1 evs1 self2 evs2,
    close env self h = (inr tt, self1, evs1) /\
    close env self1 (h ++ evs1)%list = (inr tt, self2, evs2).

(** ** Sample collaborators *)

Definition dquote : string := String (ascii_of_nat 34) EmptyString.
Definition backslash : string := String (ascii_of_nat 92) EmptyString.

(** JSON string escaping for printable ASCII text. *)
Fixpoint json_escape (s : string) : string :=
  match s with
  | EmptyString => EmptyString
  | String c s' =>
      (if Ascii.eqb c (ascii_of_nat 34) then backslash ++ dquote
       else if Ascii.eqb c (ascii_of_nat 92) then backslash ++ backslash
       else String c EmptyString) ++ json_escape s'
  end.

Definition json_quote (s : string) : string := dquote ++ json_escape s ++ dquote.

Definition dump_entry (e : LogEntry) : string :=
  "{" ++ json_quote "level" ++ ": " ++ json_quote (level e) ++ ", "
  ++ json_quote "message" ++ ": " ++ json_quote (message e) ++ ", "
  ++ json_quote "timestamp" ++ ": " ++ pretty (timestamp e) ++ "}".

Fixpoint join (sep : string) (l : list string) : string :=
  match l with
  | [] => EmptyString
  | [x] => x
  | x :: l' => x ++ sep ++ join sep l'
  end.

(** [json.dumps] on a performance log whose texts are printable ASCII. *)
Definition ascii_json_dumps (logs : list LogEntry) : string :=
  "[" ++ join ", " (map dump_entry logs) ++ "]".

(** A wait that ran out. *)
Definition timeout_expired : Exn :=
  {| exn_class := TimeoutException;
     exn_str := "Message: " ++ newline;
     exn_response := None |}.

(** A cooperative site: the browser starts, every page loads, the login
    elements are found; the consent banner shows when [banner] holds; the
    performance log, the browser cookies and the API response are given
    (the response body printed by [main] is the empty object). *)
Definition sample_env (banner : bool) (logs : list LogEntry)
    (browser_cookies : list Cookie) (resp : Response) : Env := {|
  setup_logging := fun _ => inr tt;
  stdout_write := fun _ _ => inr tt;
  chrome_new := fun _ _ => inr 1%nat;
  driver_get := fun _ _ _ => inr tt;
  wait_until := fun _ _ t _ =>
    if (t =? 3) && negb banner then inl timeout_expired else inr 2%nat;
  element_click := fun _ _ => inr tt;
  element_send_keys := fun _ _ _ => inr tt;
  find_element := fun _ _ _ _ => inr 3%nat;
  get_log := fun _ _ _ => inr logs;
  json_dumps := ascii_json_dumps;
  json_dumps_indent := fun _ => "{}";
  get_cookies := fun _ _ => inr browser_cookies;
  save_screenshot := fun _ _ _ => inr true;
  driver_quit := fun _ _ => inr tt;
  session_request := fun _ s _ _ _ _ => (inr resp, cookies s);
  session_close := fun _ _ => inr tt
|}.

(** A machine without a usable browser: the launch fails. *)
Definition chrome_not_found : Exn :=
  {| exn_class := WebDriverException;
     exn_str := "Message: unknown error: cannot find Chrome binary" ++ newline;
     exn_response := None |}.

Definition sample_env_no_browser : Env := {|
  setup_logging := fun _ => inr tt;
  stdout_write := fun _ _ => inr tt;
  chrome_new := fun _ _ => inl chrome_not_found;
  driver_get := fun _ _ _ => inr tt;
  wait_until := fun _ _ _ _ => inl timeout_expired;
  element_click := fun _ _ => inr tt;
  element_send_keys := fun _ _ _ => inr tt;
  find_element := fun _ _ _ _ => inr 3%nat;
  get_log := fun _ _ _ => inr [];
  json_dumps := ascii_json_dumps;
  json_dumps_indent := fun _ => "{}";
  get_cookies := fun _ _ => inr [];
  save_screenshot := fun _ _ _ => inr true;
  driver_quit := fun _ _ => inr tt;
  session_request := fun _ s _ _ _ _ =>
    (inl {| exn_class := ConnectionError;
            exn_str := "Connection refused";
            exn_response := None |}, cookies s);
  session_close := fun _ _ => inr tt
|}.

Definition sample_config : IHKConfig := IHKConfig_default "azubi" "geheim".

Definition sample_config_no_username : IHKConfig :=
  IHKConfig_default EmptyString "geheim".

(** A performance log with one request that carries a bearer token. *)
Definition sample_logs : list LogEntry :=
  [ {| level := "INFO";
       message := "Network.requestWillBeSent Authorization: Bearer abc.def-123_ABC";
       timestamp := 1700000000000 |} ].

(** A performance log with two different bearer tokens. *)
Definition sample_logs_two_tokens : list LogEntry :=
  [ {| level := "INFO";
       message := "Network.requestWillBeSent Authorization: Bearer first.tok_1";
       timestamp := 1700000000000 |};
    {| level := "INFO";
       message := "Network.requestWillBeSent Authorization: Bearer second.tok-2";
       timestamp := 1700000000001 |} ].

(** A performance log without any bearer token. *)
Definition sample_logs_no_token : list LogEntry :=
  [ {| level := "INFO";
       message := "Network.requestWillBeSent Accept: text/html";
       timestamp := 1700000000000 |} ].

Definition sample_cookies : list Cookie :=
  [ {| cookie_name := "a"; cookie_value := "1";
       cookie_domain := "bildung.ihk.de"; cookie_path := "/" |};
    {| cookie_name := "b"; cookie_value := "2";
       cookie_domain := "bildung.ihk.de"; cookie_path := "/" |} ].

Definition response_ok : Response := {|
  status_code := 200;
  reason := "OK";
  url := "https://service.ihk.de/anwender/anwender-api/v1/anwender/berufsbilder/check";
  text := "{}";
  json := inr (JObj [])
|}.

Definition response_no_content : Response := {|
  status_code := 204;
  reason := "No Content";
  url := "https://service.ihk.de/anwender/anwender-api/v1/anwender/berufsbilder/check";
  text := EmptyString;
  json := inl "Expecting value: line 1 column 1 (char 0)"
|}.

(** The fields while [authenticate] runs, once the browser is up. *)
Definition sample_self_browser_ready : IHKScraper :=
  {| config := sample_config; driver := Some 1%nat;
     session := None; bearer_token := None |}.

(** The fields after a successful [authenticate]. *)
Definition sample_self_authenticated : IHKScraper :=
  {| config := sample_config; driver := Some 1%nat;
     session := Some {| cookies := list_to_map [("a", "1"); ("b", "2")] |};
     bearer_token := Some "abc.def-123_ABC" |}.

(** Keyword arguments with a caller-supplied [Accept] header. *)
Definition sample_kwargs : Kwargs :=
  {| kw_headers := Some (list_to_map [("Accept", "text/plain"); ("X-Trace", "1")]);
     kw_rest := [("timeout", "30")] |}.

(** The fields and the history after [authenticate] has run to its end. *)
Definition after_authenticate (env : Env) (cfg : IHKConfig) : IHKScraper * Trace :=
  match authenticate env (__init__ cfg) [] with
  | (_, self, evs) => (self, evs)
  end.

(** [no_match_before n s]: no anchored match of the pattern at the first
    [n] offsets of [s]. *)
Fixpoint no_match_before (n : nat) (s : string) : bool :=
  match n with
  | O => true
  | S n' =>
      match TokenPattern.match_here s with
      | Some _ => false
      | None =>
          match s with
          | EmptyString => true
          | String _ s' => no_match_before n' s'
          end
      end
  end.

(** * Further observations and sample collaborators *)

(** ** Kinds of events *)

(** What the authentication flow may do: calls to the browser engine other
    than [quit], the settle delay, and log records. *)
Definition authentication_event (ev : Event) : bool :=
  match ev with
  | ECall (CChrome _) _ => true
  | ECall (CGet _ _) _ => true
  | ECall (CWaitUntil _ _ _) _ => true
  | ECall (CClick _) _ => true
  | ECall (CSendKeys _ _) _ => true
  | ECall (CFindElement _ _ _) _ => true
  | ECall (CSleep _) _ => true
  | ECall (CGetLog _ _) _ => true
  | ECall (CGetCookies _) _ => true
  | ECall (CSaveScreenshot _ _) _ => true
  | ELog _ _ => true
  | _ => false
  end.

(** The same without the browser launch. *)
Definition post_launch_event (ev : Event) : bool :=
  authentication_event ev && negb (is_launch ev).

(** What the API layer may do: requests handed to the session, and log
    records. *)
Definition api_event (ev : Event) : bool :=
  match ev with
  | ECall (CSessionRequest _ _ _ _ _) _ => true
  | ELog _ _ => true
  | _ => false
  end.

(** Interaction with the loaded page: waits, element lookups, clicks, key
    entry, and log records. *)
Definition page_event (ev : Event) : bool :=
  match ev with
  | ECall (CWaitUntil _ _ _) _ => true
  | ECall (CClick _) _ => true
  | ECall (CSendKeys _ _) _ => true
  | ECall (CFindElement _ _ _) _ => true
  | ELog _ _ => true
  | _ => false
  end.

(** [only_emits P m]: whatever the fields, the history and the answers of
    the collaborators, every event that [m] emits satisfies [P]. *)
Definition only_emits {A} (P : Event -> bool) (m : M A) : Prop :=
  forall self h, sat m self h (fun _ _ evs => Forall (fun ev => P ev = true) evs).

(** The value that a list of browser cookies gives to the name [n] in a
    jar: that of the last cookie of that name, in the form in which the jar
    stores it. *)
Definition last_cookie_value (n : string) (cks : list Cookie) : option string :=
  (fun c => stored_cookie_value (cookie_value c))
    <$> List.find (fun c => String.eqb (cookie_name c) n) (rev cks).

(** An engine whose [quit] fails. *)
Definition quit_failed : Exn :=
  {| exn_class := WebDriverException;
     exn_str := "Message: chrome not reachable" ++ newline;
     exn_response := None |}.

Definition sample_env_quit_fails : Env := {|
  setup_logging := fun _ => inr tt;
  stdout_write := fun _ _ => inr tt;
  chrome_new := fun _ _ => inr 1%nat;
  driver_get := fun _ _ _ => inr tt;
  wait_until := fun _ _ _ _ => inr 2%nat;
  element_click := fun _ _ => inr tt;
  element_send_keys := fun _ _ _ => inr tt;
  find_element := fun _ _ _ _ => inr 3%nat;
  get_log := fun _ _ _ => inr sample_logs;
  json_dumps := ascii_json_dumps;
  json_dumps_indent := fun _ => "{}";
  get_cookies := fun _ _ => inr sample_cookies;
  save_screenshot := fun _ _ _ => inr true;
  driver_quit := fun _ _ => inl quit_failed;
  session_request := fun _ s _ _ _ _ => (inr response_ok, cookies s);
  session_close := fun _ _ => inr tt
|}.

(** A consent button whose click runs into a timeout. *)
Definition sample_env_click_times_out : Env := {|
  setup_logging := fun _ => inr tt;
  stdout_write := fun _ _ => inr tt;
  chrome_new := fun _ _ => inr 1%nat;
  driver_get := fun _ _ _ => inr tt;
  wait_until := fun _ _ _ _ => inr 2%nat;
  element_click := fun _ _ => inl timeout_expired;
  element_send_keys := fun _ _ _ => inr tt;
  find_element := fun _ _ _ _ => inr 3%nat;
  get_log := fun _ _ _ => inr sample_logs;
  json_dumps := ascii_json_dumps;
  json_dumps_indent := fun _ => "{}";
  get_cookies := fun _ _ => inr sample_cookies;
  save_screenshot := fun _ _ _ => inr true;
  driver_quit := fun _ _ => inr tt;
  session_request := fun _ s _ _ _ _ => (inr response_ok, cookies s);
  session_close := fun _ _ => inr tt
|}.

(** A response with a server error. *)
Definition response_server_error : Response := {|
  status_code := 500;
  reason := "Internal Server Error";
  url := "https://service.ihk.de/anwender/anwender-api/v1/anwender/berufsbilder/check";
  text := "oops";
  json := inl "Expecting value: line 1 column 1 (char 0)"
|}.

(** Browser cookies in which a name occurs twice, and one whose value is
    wrapped in double quotes and holds a backslash-quote pair. *)
Definition sample_cookies_repeated : list Cookie :=
  [ {| cookie_name := "a"; cookie_value := "1";
       cookie_domain := "bildung.ihk.de"; cookie_path := "/" |};
    {| cookie_name := "b"; cookie_value := "2";
       cookie_domain := "bildung.ihk.de"; cookie_path := "/" |};
    {| cookie_name := "a"; cookie_value := "3";
       cookie_domain := "bildung.ihk.de"; cookie_path := "/service" |};
    {| cookie_name := "q";
       cookie_value := dquote ++ "x" ++ backslash ++ dquote ++ "y" ++ dquote;
       cookie_domain := "bildung.ihk.de"; cookie_path := "/" |} ].

(** Log records. *)
Definition log_event (ev : Event) : bool :=
  match ev with
  | ELog _ _ => true
  | _ => false
  end.

(** Calls that release resources. *)
Definition teardown_raised (ev : Event) : option Exn :=
  match ev with
  | ECall (CQuit _) (Some e) => Some e
  | ECall (CSessionClose _) (Some e) => Some e
  | _ => None
  end.

(** Log records of level ERROR. *)
Definition is_error_record (ev : Event) : bool :=
  match ev with
  | ELog ERROR _ => true
  | _ => false
  end.

(** * Properties *)

(** ** The bearer-token pattern *)

Module TokenPatternFacts.
Import TokenPattern.

Lemma append_nil (s : string) : EmptyString ++ s = s.
Proof. reflexivity. Qed.

Lemma append_cons a (p r : string) : String a p ++ r = String a (p ++ r).
Proof. reflexivity. Qed.

Lemma strip_prefix_app p r : strip_prefix p (p ++ r) = Some r.
Proof.
  induction p as [|a p IH]; [reflexivity|].
  rewrite append_cons. simpl. rewrite Ascii.eqb_refl. exact IH.
Qed.

Lemma strip_prefix_Some p : forall s r, strip_prefix p s = Some r -> s = p ++ r.
Proof.
  induction p as [|a p IH]; simpl; intros s r H.
  - injection H as ->. reflexivity.
  - destruct s as [|b s]; [discriminate|].
    destruct (Ascii.eqb_spec a b) as [->|]; [|discriminate].
    rewrite append_cons. f_equal. apply IH, H.
Qed.

Lemma take_token_app tok post :
  all_token_chars tok = true -> stops_token post = true ->
  take_token (tok ++ post) = tok.
Proof.
  intros Htok Hpost. induction tok as [|c tok IH].
  - rewrite append_nil. destruct post as [|c post]; simpl in *; [reflexivity|].
    apply negb_true_iff in Hpost. rewrite Hpost. reflexivity.
  - rewrite append_cons. simpl in *.
    apply andb_true_iff in Htok as [Hc Htok]. rewrite Hc, IH; auto.
Qed.

Lemma match_here_occurs s : match_here s = None <-> ~ occurs_at EmptyString s.
Proof.
  unfold match_here, occurs_at. split.
  - intros H (c & rest & Hc & ->). rewrite append_nil, strip_prefix_app in H.
    simpl in H. rewrite Hc in H. discriminate.
  - intros H. destruct (strip_prefix literal s) as [rest|] eqn:Hp; [|reflexivity].
    apply strip_prefix_Some in Hp. subst s.
    destruct rest as [|c rest]; [reflexivity|]. simpl.
    destruct (is_token_char c) eqn:Hc; [|reflexivity].
    exfalso. apply H. exists c, rest. auto.
Qed.

Lemma match_here_token tok post :
  tok <> EmptyString -> all_token_chars tok = true -> stops_token post = true ->
  match_here (literal ++ tok ++ post) = Some tok.
Proof.
  intros Hne Hall Hstop. unfold match_here.
  rewrite strip_prefix_app, take_token_app by assumption.
  destruct tok; congruence.
Qed.

Lemma occurs_at_cons a pre s : occurs_at (String a pre) (String a s) <-> occurs_at pre s.
Proof.
  unfold occurs_at. split; intros (c & rest & Hc & E); exists c, rest; split; auto.
  - rewrite append_cons in E. congruence.
  - rewrite append_cons. congruence.
Qed.

Lemma occurs_at_head a pre s :
  occurs_at (String a pre) s -> exists s', s = String a s'.
Proof. intros (c & rest & _ & ->). rewrite append_cons. eauto. Qed.

Lemma occurs_at_nonempty pre : ~ occurs_at pre EmptyString.
Proof. intros (c & rest & _ & E). destruct pre; discriminate. Qed.

Lemma search_None s : search s = None <-> ~ occurs s.
Proof.
  induction s as [|a s IH].
  - split; [|reflexivity]. intros _ (pre & Ho). exact (occurs_at_nonempty _ Ho).
  - cbn [search]. destruct (match_here (String a s)) as [tok|] eqn:Hm.
    + split; [discriminate|]. intros H. exfalso.
      assert (Hn : match_here (String a s) <> None) by congruence.
      rewrite match_here_occurs in Hn. apply Hn. intros Ho. apply H. exists EmptyString. exact Ho.
    + rewrite IH. apply match_here_occurs in Hm. unfold occurs. split.
      * intros H (pre & Ho). destruct pre as [|b pre]; [tauto|].
        destruct (occurs_at_head _ _ _ Ho) as (s' & E). injection E as -> ->.
        apply H. exists pre. apply occurs_at_cons in Ho. exact Ho.
      * intros H (pre & Ho). apply H. exists (String a pre). apply occurs_at_cons. exact Ho.
Qed.

Lemma search_first pre : forall tok post,
  tok <> EmptyString -> all_token_chars tok = true -> stops_token post = true ->
  (forall pre', occurs_at pre' (pre ++ literal ++ tok ++ post) ->
                (String.length pre <= String.length pre')%nat) ->
  search (pre ++ literal ++ tok ++ post) = Some tok.
Proof.
  induction pre as [|a pre IH]; intros tok post Hne Hall Hstop Hfirst.
  - rewrite append_nil.
    assert (Hm := match_here_token tok post Hne Hall Hstop).
    destruct (literal ++ tok ++ post); cbn [search]; rewrite Hm; reflexivity.
  - rewrite append_cons in *. cbn [search].
    destruct (match_here (String a (pre ++ literal ++ tok ++ post))) eqn:Hm.
    + exfalso.
      assert (Hn : match_here (String a (pre ++ literal ++ tok ++ post)) <> None) by congruence.
      rewrite match_here_occurs in Hn. apply Hn. intros Ho.
      apply Hfirst in Ho. simpl in Ho. lia.
    + apply IH; auto. intros pre' Ho.
      apply (occurs_at_cons a) in Ho. apply Hfirst in Ho. simpl in Ho. lia.
Qed.

Lemma search_nonempty s tok : search s = Some tok -> tok <> EmptyString.
Proof.
  induction s as [|a s IH]; cbn [search].
  - unfold match_here. simpl. discriminate.
  - destruct (match_here (String a s)) as [t|] eqn:Hm; [|exact IH].
    intros [= ->]. unfold match_here in Hm.
    destruct (strip_prefix literal (String a s)); [|discriminate].
    destruct (take_token s0); congruence.
Qed.

(** A log without the literal has no occurrence of the pattern. *)
Lemma no_literal_no_occurrence log :
  (forall a b, log <> a ++ literal ++ b) -> ~ occurs log.
Proof.
  intros H (pre & c & rest & _ & E). exact (H pre (String c rest) E).
Qed.

(** A check of the offsets before [n], run by evaluation, settles where the
    first occurrence is. *)
Lemma no_match_before_sound n : forall log,
  no_match_before n log = true ->
  forall pre, occurs_at pre log -> (n <= String.length pre)%nat.
Proof.
  induction n as [|n IH]; intros log Hb pre Ho; [lia|].
  cbn [no_match_before] in Hb.
  destruct (match_here log) as [tok|] eqn:Hm; [discriminate|].
  apply match_here_occurs in Hm.
  destruct pre as [|a pre]; [contradiction|].
  destruct (occurs_at_head _ _ _ Ho) as (log' & ->).
  apply occurs_at_cons in Ho. simpl. apply le_n_S. eapply IH; eassumption.
Qed.

End TokenPatternFacts.

(** ** Rules of the program logic *)

Section Rules.

Context {A : Type}.
Implicit Types (Q : Exn + A -> IHKScraper -> Trace -> Prop).

Lemma sat_ret (a : A) self h Q : Q (inr a) self [] -> sat (ret a) self h Q.
Proof. exact (fun H => H). Qed.

Lemma sat_raise (e : Exn) self h Q : Q (inl e) self [] -> sat (raise e) self h Q.
Proof. exact (fun H => H). Qed.

Lemma sat_extern c (answer : Trace -> Exn + A) self h Q :
  Q (answer h) self [ECall c (raised_by (answer h))] -> sat (extern c answer) self h Q.
Proof. exact (fun H => H). Qed.

(** Sequencing: the continuation runs after the events of the first part,
    unless that part raised. *)
Lemma sat_bind {B} (m : M B) (f : B -> M A) self h Q :
  sat m self h (fun r self1 ev1 =>
    match r with
    | inl e => Q (inl e) self1 ev1
    | inr b =>
        sat (f b) self1 (h ++ ev1)%list
          (fun r2 self2 ev2 => Q r2 self2 (ev1 ++ ev2)%list)
    end) ->
  sat (bind m f) self h Q.
Proof.
  unfold sat, bind. destruct (m self h) as [[[e|b] self1] ev1]; [auto|].
  destruct (f b self1 (h ++ ev1)%list) as [[r2 self2] ev2]. auto.
Qed.

(** [try ... except]: the handler runs for the exceptions it catches. *)
Lemma sat_try_except (catches : Exn -> bool) (m : M A) (handler : Exn -> M A) self h Q :
  sat m self h (fun r self1 ev1 =>
    match r with
    | inl e =>
        if catches e
        then sat (handler e) self1 (h ++ ev1)%list
               (fun r2 self2 ev2 => Q r2 self2 (ev1 ++ ev2)%list)
        else Q (inl e) self1 ev1
    | inr a => Q (inr a) self1 ev1
    end) ->
  sat (try_except catches m handler) self h Q.
Proof.
  unfold sat, try_except. destruct (m self h) as [[[e|a] self1] ev1]; [|auto].
  destruct (catches e); [|auto].
  destruct (handler e self1 (h ++ ev1)%list) as [[r2 self2] ev2]. auto.
Qed.

Lemma sat_mono (m : M A) self h Q Q' :
  sat m self h Q -> (forall r s evs, Q r s evs -> Q' r s evs) -> sat m self h Q'.
Proof. unfold sat. destruct (m self h) as [[r s] evs]. auto. Qed.

(** From the logic back to runs. *)
Lemma sat_run (m : M A) self h Q r self' evs :
  sat m self h Q -> m self h = (r, self', evs) -> Q r self' evs.
Proof. unfold sat. intros H E. rewrite E in H. exact H. Qed.

Lemma sat_exists (m : M A) self h Q :
  sat m self h Q -> exists r self' evs, m self h = (r, self', evs) /\ Q r self' evs.
Proof. unfold sat. destruct (m self h) as [[r s] evs]. eauto. Qed.

End Rules.

Lemma sat_get_self self h (Q : Exn + IHKScraper -> IHKScraper -> Trace -> Prop) :
  Q (inr self) self [] -> sat get_self self h Q.
Proof. exact (fun H => H). Qed.

Lemma sat_put_self self' self h (Q : Exn + unit -> IHKScraper -> Trace -> Prop) :
  Q (inr tt) self' [] -> sat (put_self self') self h Q.
Proof. exact (fun H => H). Qed.

Lemma sat_log lvl msg self h (Q : Exn + unit -> IHKScraper -> Trace -> Prop) :
  Q (inr tt) self [ELog lvl msg] -> sat (log lvl msg) self h Q.
Proof. exact (fun H => H). Qed.

Lemma sat_session_request_call env s method target hd rest self h
    (Q : Exn + Response -> IHKScraper -> Trace -> Prop) :
  (forall r jar,
     session_request env h s method target hd rest = (r, jar) ->
     Q r {| config := config self; driver := driver self;
            session := Some {| cookies := jar |};
            bearer_token := bearer_token self |}
       [ECall (CSessionRequest s method target hd rest) (raised_by r)]) ->
  sat (session_request_call env s method target hd rest) self h Q.
Proof.
  intros H. unfold sat, session_request_call.
  destruct (session_request env h s method target hd rest) as [r jar]. auto.
Qed.

(** One step of symbolic execution: a rule for the head of the method, the
    body of a small helper, or a case split on what a collaborator
    answers. *)
Ltac wp_prim :=
  lazymatch goal with
  | |- sat (bind _ _) _ _ _ => apply sat_bind
  | |- sat (try_except _ _ _) _ _ _ => apply sat_try_except
  | |- sat (ret _) _ _ _ => apply sat_ret
  | |- sat (raise _) _ _ _ => apply sat_raise
  | |- sat get_self _ _ _ => apply sat_get_self
  | |- sat (put_self _) _ _ _ => apply sat_put_self
  | |- sat (log _ _) _ _ _ => apply sat_log
  | |- sat (extern _ _) _ _ _ => apply sat_extern
  end.

Ltac wp_unfold :=
  lazymatch goal with
  | |- sat (click_kc_login _) _ _ _ => unfold click_kc_login
  | |- sat (set_driver _) _ _ _ => unfold set_driver
  | |- sat (set_bearer_token _) _ _ _ => unfold set_bearer_token
  | |- sat (set_session _) _ _ _ => unfold set_session
  | |- sat (self_driver _) _ _ _ => unfold self_driver
  end.

Ltac wp_simpl :=
  cbv beta iota;
  cbn [driver session bearer_token config app raised_by is_Exception];
  rewrite ?app_nil_r, <- ?app_assoc;
  cbn [app].

Ltac wp_case :=
  first
    [ match goal with
      | |- context [if ?b then _ else _] => destruct b eqn:?
      end
    | match goal with
      | |- context [match ?x with inl _ => _ | inr _ => _ end] => destruct x eqn:?
      end ].

Ltac wp_step := first [wp_prim | wp_unfold | wp_case]; wp_simpl.

Ltac wp_all := wp_simpl; repeat wp_step.

(** The same, with [H : driver self = Some d] at hand for the places where
    the method reads [self.driver]. *)
Ltac wp_using H := wp_simpl; repeat (first [wp_step | progress rewrite H; wp_simpl]).

(** ** The API client *)

Lemma fixed_headers_lookup cfg tok :
  fixed_headers cfg tok !! "Accept" = Some "application/json" /\
  fixed_headers cfg tok !! "Authorization" = Some ("Bearer " ++ tok) /\
  fixed_headers cfg tok !! "Referer" = Some (base_url cfg ++ "/") /\
  fixed_headers cfg tok !! "X-Bereich-Intern-Extern" = Some "extern" /\
  fixed_headers cfg tok !! "X-Ex-Abb" = Some "false" /\
  fixed_headers cfg tok !! "X-Ihk-Nummer" = Some (ihk_nummer cfg) /\
  fixed_headers cfg tok !! "X-Organisation-Nummer-Lang" = Some (organisation_nummer cfg) /\
  fixed_headers cfg tok !! "User-Agent" = Some (user_agent cfg).
Proof.
  unfold fixed_headers. cbn [list_to_map foldr curry fst snd].
  repeat split; simplify_map_eq; reflexivity.
Qed.

Lemma fixed_headers_dom cfg tok :
  dom (fixed_headers cfg tok) =
  list_to_set ["Accept"; "Authorization"; "Referer"; "X-Bereich-Intern-Extern";
               "X-Ex-Abb"; "X-Ihk-Nummer"; "X-Organisation-Nummer-Lang"; "User-Agent"].
Proof. unfold fixed_headers. rewrite dom_list_to_map_L. reflexivity. Qed.

Lemma dict_update_lookup (d other : Headers) k :
  dict_update d other !! k =
  match other !! k with
  | Some v => Some v
  | None => d !! k
  end.
Proof.
  unfold dict_update. rewrite lookup_union. destruct (other !! k), (d !! k); reflexivity.
Qed.

(** The guard of [api_request]: without a session or without a non-empty
    token nothing happens but the error. *)
Lemma api_request_guard env endpoint method kwargs self h :
  session self = None \/ bearer_token self = None \/ bearer_token self = Some EmptyString ->
  api_request env endpoint method kwargs self h = (inl not_authenticated, self, []).
Proof.
  intros H. unfold api_request, bind, get_self. cbn.
  destruct (session self) as [s|], (bearer_token self) as [[|c t]|]; try reflexivity.
  destruct H as [H|[H|H]]; discriminate.
Qed.

(** Past the guard, [api_request] hands exactly one request to the session:
    it is the first event, and the result of the method is the result of
    that request. *)
Lemma api_request_run env endpoint method kwargs self h sess tok :
  session self = Some sess -> bearer_token self = Some tok -> tok <> EmptyString ->
  let target := api_base_url (config self) ++ "/" ++ endpoint in
  let hd := match kw_headers kwargs with
            | Some extra => dict_update (fixed_headers (config self) tok) extra
            | None => fixed_headers (config self) tok
            end in
  sat (api_request env endpoint method kwargs) self h (fun r self' evs =>
    exists jar tail,
      session_request env h sess method target hd (kw_rest kwargs) = (r, jar) /\
      self' = {| config := config self; driver := driver self;
                 session := Some {| cookies := jar |};
                 bearer_token := bearer_token self |} /\
      evs = ECall (CSessionRequest sess method target hd (kw_rest kwargs)) (raised_by r)
            :: tail /\
      List.filter is_request tail = [] /\
      (forall resp, r = inr resp ->
         tail = [ELog INFO ("API request to " ++ endpoint ++ ": Status "
                            ++ pretty (status_code resp))])).
Proof.
  intros Hs Ht Hne target hd. unfold api_request.
  apply sat_bind, sat_get_self. wp_simpl. rewrite Hs, Ht.
  destruct tok as [|c tok]; [congruence|].
  fold target. fold hd.
  apply sat_try_except, sat_bind, sat_session_request_call.
  intros r jar E. wp_simpl. destruct r as [e|resp].
  - destruct (is_RequestException e); wp_all; exists jar; eexists; rewrite ?Ht;
      repeat split; eauto; discriminate.
  - wp_all. exists jar; eexists; rewrite ?Ht; repeat split; eauto.
    intros ? [= <-]. reflexivity.
Qed.

(** C7. Whenever [api_request] is called before authentication has
    completed, that is with no HTTP session or with no bearer token (absent
    or empty), it raises the not-authenticated error, leaves the fields as
    they are and emits no event at all, so no network request is issued. *)
Theorem api_request_before_authentication env endpoint method kwargs self h :
  session self = None \/ bearer_token self = None \/ bearer_token self = Some EmptyString ->
  api_request env endpoint method kwargs self h = (inl not_authenticated, self, []) /\
  forall r self' evs,
    api_request env endpoint method kwargs self h = (r, self', evs) ->
    List.filter is_request evs = [].
Proof.
  intros H. pose proof (api_request_guard env endpoint method kwargs self h H) as E.
  split; [exact E|]. intros r self' evs E'. rewrite E in E'.
  injection E' as <- <- <-. reflexivity.
Qed.

Lemma api_request_before_authentication_witness :
  api_request (sample_env false sample_logs sample_cookies response_ok)
    "anwender/berufsbilder/check" "GET" no_kwargs (__init__ sample_config) []
  = (inl not_authenticated, __init__ sample_config, []).
Proof.
  apply (api_request_before_authentication
           (sample_env false sample_logs sample_cookies response_ok)
           "anwender/berufsbilder/check" "GET" no_kwargs (__init__ sample_config) []).
  left. reflexivity.
Defined.

(** C6. For every authenticated request with endpoint [endpoint] and
    caller-supplied extra headers, the one request handed to the session
    has the URL [api_base_url + "/" + endpoint], and its headers are the
    fixed set (Accept, Authorization, Referer, the four tenant headers and
    the user agent, with the values listed) in which every key that the
    caller supplies takes the caller's value. *)
Theorem api_request_target_and_headers env endpoint method kwargs self h sess tok :
  session self = Some sess -> bearer_token self = Some tok -> tok <> EmptyString ->
  exists r self' tail hd,
    api_request env endpoint method kwargs self h =
      (r, self',
       ECall (CSessionRequest sess method
                (api_base_url (config self) ++ "/" ++ endpoint) hd (kw_rest kwargs))
             (raised_by r) :: tail) /\
    List.filter is_request tail = [] /\
    (forall k,
       hd !! k =
       match kw_headers kwargs ≫= (.!! k) with
       | Some v => Some v
       | None => fixed_headers (config self) tok !! k
       end) /\
    dom (fixed_headers (config self) tok) =
      list_to_set ["Accept"; "Authorization"; "Referer"; "X-Bereich-Intern-Extern";
                   "X-Ex-Abb"; "X-Ihk-Nummer"; "X-Organisation-Nummer-Lang";
                   "User-Agent"] /\
    fixed_headers (config self) tok !! "Accept" = Some "application/json" /\
    fixed_headers (config self) tok !! "Authorization" = Some ("Bearer " ++ tok) /\
    fixed_headers (config self) tok !! "Referer" = Some (base_url (config self) ++ "/") /\
    fixed_headers (config self) tok !! "X-Bereich-Intern-Extern" = Some "extern" /\
    fixed_headers (config self) tok !! "X-Ex-Abb" = Some "false" /\
    fixed_headers (config self) tok !! "X-Ihk-Nummer" = Some (ihk_nummer (config self)) /\
    fixed_headers (config self) tok !! "X-Organisation-Nummer-Lang"
      = Some (organisation_nummer (config self)) /\
    fixed_headers (config self) tok !! "User-Agent" = Some (user_agent (config self)).
Proof.
  intros Hs Ht Hne.
  destruct (sat_exists _ _ _ _
              (api_request_run env endpoint method kwargs self h sess tok Hs Ht Hne))
    as (r & self' & evs & E & jar & tail & _ & _ & -> & Htail & _).
  exists r, self', tail. eexists. split; [exact E|]. split; [exact Htail|]. split.
  - intros k. destruct (kw_headers kwargs) as [extra|]; cbn.
    + apply dict_update_lookup.
    + reflexivity.
  - split; [apply fixed_headers_dom | apply fixed_headers_lookup].
Qed.

Lemma api_request_target_and_headers_witness :
  exists r self' tail hd,
    api_request (sample_env false sample_logs sample_cookies response_ok)
      "anwender/berufsbilder/check" "POST" sample_kwargs sample_self_authenticated []
    = (r, self',
       ECall (CSessionRequest {| cookies := list_to_map [("a", "1"); ("b", "2")] |}
                "POST"
                "https://service.ihk.de/anwender/anwender-api/v1/anwender/berufsbilder/check"
                hd [("timeout", "30")])
             (raised_by r) :: tail) /\
    hd !! "Accept" = Some "text/plain" /\
    hd !! "X-Trace" = Some "1" /\
    hd !! "Authorization" = Some "Bearer abc.def-123_ABC" /\
    hd !! "Referer" = Some "https://bildung.ihk.de/".
Proof.
  destruct (api_request_target_and_headers
              (sample_env false sample_logs sample_cookies response_ok)
              "anwender/berufsbilder/check" "POST" sample_kwargs
              sample_self_authenticated []
              {| cookies := list_to_map [("a", "1"); ("b", "2")] |}
              "abc.def-123_ABC" eq_refl eq_refl ltac:(discriminate))
    as (r & self' & tail & hd & E & _ & Hk & _).
  exists r, self', tail, hd. split; [exact E|].
  rewrite !Hk. repeat split; vm_compute; reflexivity.
Defined.

(** C4 (amended). Every API request that the client actually issues is
    made with an HTTP session present and a non-empty bearer token, which
    is what the [Authorization] header carries unless the caller overrides
    it.  The cookie jar of that session is not examined: with the same
    token the same request is issued whatever the jar holds, also when it
    is empty. *)
Theorem issued_requests_are_authenticated env endpoint method kwargs self h r self' evs
    s m u hd rest o :
  api_request env endpoint method kwargs self h = (r, self', evs) ->
  In (ECall (CSessionRequest s m u hd rest) o) evs ->
  session self = Some s /\
  exists tok, bearer_token self = Some tok /\ tok <> EmptyString /\
    (kw_headers kwargs ≫= (.!! "Authorization") = None ->
     hd !! "Authorization" = Some ("Bearer " ++ tok)) /\
    (forall jar, exists r' self'' o' tail,
       api_request env endpoint method kwargs
         {| config := config self; driver := driver self;
            session := Some {| cookies := jar |};
            bearer_token := bearer_token self |} h
       = (r', self'',
          ECall (CSessionRequest {| cookies := jar |} m u hd rest) o' :: tail)).
Proof.
  intros E Hin.
  destruct (session self) as [sess|] eqn:Hs;
    [|rewrite api_request_guard in E by auto; injection E as <- <- <-; destruct Hin].
  destruct (bearer_token self) as [tok|] eqn:Ht;
    [|rewrite api_request_guard in E by auto; injection E as <- <- <-; destruct Hin].
  destruct (string_dec tok EmptyString) as [->|Hne];
    [rewrite api_request_guard in E by auto; injection E as <- <- <-; destruct Hin|].
  pose proof (sat_run _ _ _ _ _ _ _
    (api_request_run env endpoint method kwargs self h sess tok Hs Ht Hne) E)
    as (jar & tail & _ & _ & -> & Htail & _).
  destruct Hin as [Hin|Hin].
  - injection Hin as <- <- <- <- <- _. split; [reflexivity|].
    exists tok. split; [reflexivity|]. split; [exact Hne|]. split.
    + intros Hno. destruct (kw_headers kwargs) as [extra|]; cbn in Hno.
      * rewrite dict_update_lookup, Hno. apply fixed_headers_lookup.
      * apply fixed_headers_lookup.
    + intros jar'.
      destruct (sat_exists _ _ _ _
                  (api_request_run env endpoint method kwargs
                     {| config := config self; driver := driver self;
                        session := Some {| cookies := jar' |};
                        bearer_token := bearer_token self |} h
                     {| cookies := jar' |} tok eq_refl Ht Hne))
        as (r' & self'' & evs' & E' & jar'' & tail' & _ & _ & -> & _).
      cbn [config] in E'. rewrite Ht in E'.
      exists r', self''. do 2 eexists. exact E'.
  - exfalso.
    assert (Hf : In (ECall (CSessionRequest s m u hd rest) o) (List.filter is_request tail)).
    { apply filter_In. split; [exact Hin | reflexivity]. }
    rewrite Htail in Hf. destruct Hf.
Qed.

Lemma issued_requests_are_authenticated_witness :
  session sample_self_authenticated
    = Some {| cookies := list_to_map [("a", "1"); ("b", "2")] |} /\
  exists tok,
    bearer_token sample_self_authenticated = Some tok /\ tok <> EmptyString /\
    (kw_headers no_kwargs ≫= (.!! "Authorization") = None ->
     fixed_headers sample_config "abc.def-123_ABC" !! "Authorization"
     = Some ("Bearer " ++ tok)) /\
    (forall jar, exists r' self'' o' tail,
       api_request (sample_env false sample_logs sample_cookies response_ok)
         "anwender/berufsbilder/check" "GET" no_kwargs
         {| config := sample_config; driver := Some 1%nat;
            session := Some {| cookies := jar |};
            bearer_token := Some "abc.def-123_ABC" |} []
       = (r', self'',
          ECall (CSessionRequest {| cookies := jar |} "GET"
                   "https://service.ihk.de/anwender/anwender-api/v1/anwender/berufsbilder/check"
                   (fixed_headers sample_config "abc.def-123_ABC") []) o' :: tail)).
Proof.
  apply (issued_requests_are_authenticated
           (sample_env false sample_logs sample_cookies response_ok)
           "anwender/berufsbilder/check" "GET" no_kwargs sample_self_authenticated []
           (inr response_ok) sample_self_authenticated
           [ECall (CSessionRequest {| cookies := list_to_map [("a", "1"); ("b", "2")] |}
                     "GET"
                     "https://service.ihk.de/anwender/anwender-api/v1/anwender/berufsbilder/check"
                     (fixed_headers sample_config "abc.def-123_ABC") []) None;
            ELog INFO "API request to anwender/berufsbilder/check: Status 200"]
           {| cookies := list_to_map [("a", "1"); ("b", "2")] |} "GET"
           "https://service.ihk.de/anwender/anwender-api/v1/anwender/berufsbilder/check"
           (fixed_headers sample_config "abc.def-123_ABC") [] None).
  - vm_compute. reflexivity.
  - simpl. left. reflexivity.
Defined.

(** C4, as the specification words it, fails: after an authentication in
    which the browser reported no cookie, [api_request] issues its request
    from a session whose cookie jar is empty. *)
Lemma complete_session_counterexample :
  let env := sample_env false sample_logs [] response_ok in
  let '(self, h) := after_authenticate env sample_config in
  session self = Some {| cookies := ∅ |} /\
  ~ requests_only_from_complete_session env
      "anwender/berufsbilder/check" "GET" no_kwargs self h.
Proof.
  cbv zeta.
  destruct (after_authenticate _ _) as [self h] eqn:Ea.
  assert (Hself : self = {| config := sample_config; driver := Some 1%nat;
                           session := Some {| cookies := ∅ |};
                           bearer_token := Some "abc.def-123_ABC" |}).
  { vm_compute in Ea. injection Ea as <- _. reflexivity. }
  split; [rewrite Hself; reflexivity|].
  intros Hclaim.
  destruct (sat_exists _ _ _ _
              (api_request_run (sample_env false sample_logs [] response_ok)
                 "anwender/berufsbilder/check" "GET" no_kwargs self h
                 {| cookies := ∅ |} "abc.def-123_ABC"
                 ltac:(rewrite Hself; reflexivity) ltac:(rewrite Hself; reflexivity)
                 ltac:(discriminate)))
    as (r & self' & evs & E & jar & tail & _ & _ & -> & _).
  destruct (Hclaim _ _ _ _ _ _ _ _ _ E (or_introl eq_refl)) as [_ Hjar].
  apply Hjar. reflexivity.
Qed.

(** C5. What the typed accessor does with the response it receives: on
    status 200 it returns the parsed JSON body (or raises the decoder's
    error when the body is not JSON); on a status from 400 to 599 it raises
    an [HTTPError] that carries the response, hence its status and body; on
    every other status (201, 204, 304, ...) it logs an error and then
    returns [None] without raising. *)
Theorem get_berufsbilder_check_outcomes env self h sess tok resp jar :
  session self = Some sess -> bearer_token self = Some tok -> tok <> EmptyString ->
  session_request env h sess "GET"
    (api_base_url (config self) ++ "/" ++ "anwender/berufsbilder/check")
    (fixed_headers (config self) tok) [] = (inr resp, jar) ->
  exists r self' evs,
    get_berufsbilder_check env self h = (r, self', evs) /\
    (status_code resp = 200 ->
     match json resp with
     | inr body => r = inr body
     | inl msg => exists e, r = inl e /\ exn_class e = JSONDecodeError
     end) /\
    (400 <= status_code resp < 600 ->
     exists e, r = inl e /\ exn_class e = HTTPError /\ exn_response e = Some resp) /\
    (status_code resp <> 200 -> ~ 400 <= status_code resp < 600 ->
     r = inr JNull /\
     evs = [ECall (CSessionRequest sess "GET"
                     (api_base_url (config self) ++ "/" ++ "anwender/berufsbilder/check")
                     (fixed_headers (config self) tok) []) None;
            ELog INFO ("API request to anwender/berufsbilder/check: Status "
                       ++ pretty (status_code resp));
            ELog ERROR ("API error " ++ pretty (status_code resp) ++ ": " ++ text resp)]).
Proof.
  intros Hs Ht Hne Hreq.
  apply sat_exists. unfold get_berufsbilder_check.
  apply sat_bind.
  eapply sat_mono;
    [exact (api_request_run env "anwender/berufsbilder/check" "GET" no_kwargs
              self h sess tok Hs Ht Hne)|].
  cbn [kw_headers kw_rest no_kwargs].
  intros r self' evs (jar' & tail & E & -> & -> & _ & Htail).
  rewrite Hreq in E. injection E as <- <-.
  rewrite (Htail resp eq_refl). cbn [raised_by].
  destruct (Z.eqb_spec (status_code resp) 200) as [E200|N200].
  - apply sat_bind, sat_log. wp_simpl. unfold response_json.
    destruct (json resp) as [msg|body] eqn:Hj; [apply sat_raise|apply sat_ret].
    all: split; [intros _|split; [intros ?; lia|intros ?; contradiction]].
    + eauto.
    + reflexivity.
  - apply sat_bind, sat_log. wp_simpl. apply sat_bind. unfold raise_for_status.
    destruct ((400 <=? status_code resp) && (status_code resp <? 500)) eqn:H4;
      [|destruct ((500 <=? status_code resp) && (status_code resp <? 600)) eqn:H5].
    1, 2: apply sat_raise;
      (split; [intros ?; contradiction|]); (split; [intros _; eauto|]);
      intros _ Hno; exfalso; apply Hno; lia.
    apply sat_ret. wp_simpl. apply sat_ret.
    apply andb_false_iff in H4, H5.
    rewrite Z.leb_gt, Z.ltb_ge in H4, H5.
    split; [intros ?; contradiction|]. split; [intros ?; lia|].
    intros _ _. split; reflexivity.
Qed.

Lemma get_berufsbilder_check_outcomes_witness :
  exists self' evs,
    get_berufsbilder_check
      (sample_env false sample_logs sample_cookies response_no_content)
      sample_self_authenticated []
    = (inr JNull, self', evs).
Proof.
  destruct (get_berufsbilder_check_outcomes
              (sample_env false sample_logs sample_cookies response_no_content)
              sample_self_authenticated []
              {| cookies := list_to_map [("a", "1"); ("b", "2")] |}
              "abc.def-123_ABC" response_no_content
              (list_to_map [("a", "1"); ("b", "2")])
              eq_refl eq_refl ltac:(discriminate) eq_refl)
    as (r & self' & evs & E & _ & _ & Hother).
  destruct Hother as [-> _]; [discriminate | cbn; lia |].
  exists self', evs. exact E.
Defined.

(** ** Summaries of the authentication steps *)

Lemma setup_browser_spec env self h :
  sat (_setup_browser env) self h (fun r self' evs =>
    self' = self /\
    match chrome_new env h (browser_options (config self)) with
    | inr d =>
        r = inr d /\
        evs = [ECall (CChrome (browser_options (config self))) None;
               ELog INFO "Chrome WebDriver initialized successfully"]
    | inl e =>
        r = inl (mkWebDriverException ("Browser initialization failed: " ++ exn_str e)) /\
        evs = [ECall (CChrome (browser_options (config self))) (Some e);
               ELog ERROR ("Failed to initialize WebDriver: " ++ exn_str e)]
    end).
Proof. unfold _setup_browser. wp_all; auto. Qed.

Lemma accept_cookies_spec env self h d :
  driver self = Some d ->
  sat (_accept_cookies env) self h (fun r self' evs =>
    self' = self /\
    match wait_until env h d 3 consent_button with
    | inl e =>
        evs = ECall (CWaitUntil d 3 consent_button) (Some e)
              :: (if is_TimeoutException e
                  then [ELog INFO "Cookie banner not found or already accepted"]
                  else []) /\
        r = if is_TimeoutException e then inr tt else inl e
    | inr b =>
        match element_click env (h ++ [ECall (CWaitUntil d 3 consent_button) None])%list b with
        | inl e =>
            evs = ECall (CWaitUntil d 3 consent_button) None
                  :: ECall (CClick b) (Some e)
                  :: (if is_TimeoutException e
                      then [ELog INFO "Cookie banner not found or already accepted"]
                      else []) /\
            r = if is_TimeoutException e then inr tt else inl e
        | inr _ =>
            evs = [ECall (CWaitUntil d 3 consent_button) None;
                   ECall (CClick b) None;
                   ELog INFO "Cookie consent accepted"] /\
            r = inr tt
        end
    end).
Proof.
  intros Hd. unfold _accept_cookies.
  apply sat_try_except, sat_bind. unfold self_driver. apply sat_bind, sat_get_self.
  wp_simpl. rewrite Hd. wp_all; auto.
Qed.

Lemma save_error_screenshot_spec env self h :
  sat (_save_error_screenshot env) self h (fun r self' evs =>
    self' = self /\ r = inr tt /\
    match driver self with
    | None => evs = []
    | Some d =>
        match save_screenshot env h d "error_screenshot.png" with
        | inr _ =>
            evs = [ECall (CSaveScreenshot d "error_screenshot.png") None;
                   ELog INFO "Error screenshot saved: error_screenshot.png"]
        | inl e =>
            evs = [ECall (CSaveScreenshot d "error_screenshot.png") (Some e);
                   ELog WARNING ("Could not save screenshot: " ++ exn_str e)]
        end
    end).
Proof.
  unfold _save_error_screenshot.
  apply sat_try_except, sat_bind, sat_get_self. wp_simpl.
  destruct (driver self) as [d|]; wp_all; auto.
Qed.

Lemma perform_login_no_credentials env self h :
  username (config self) = EmptyString \/ password (config self) = EmptyString ->
  _perform_login env self h = (inl missing_credentials, self, []).
Proof.
  intros Hcred.
  assert (Hb : String.eqb (username (config self)) EmptyString
               || String.eqb (password (config self)) EmptyString = true).
  { apply orb_true_iff. rewrite !String.eqb_eq. exact Hcred. }
  unfold _perform_login, bind, get_self. cbn -[String.eqb orb]. rewrite Hb. reflexivity.
Qed.

Lemma perform_login_no_credentials_sat env self h
    (Q : Exn + unit -> IHKScraper -> Trace -> Prop) :
  username (config self) = EmptyString \/ password (config self) = EmptyString ->
  Q (inl missing_credentials) self [] ->
  sat (_perform_login env) self h Q.
Proof.
  intros Hcred HQ. unfold sat. rewrite perform_login_no_credentials by exact Hcred. exact HQ.
Qed.

(** With credentials, the login step starts with the wait for the sign-in
    link, and whatever one of its waits raises is what the step raises. *)
Lemma perform_login_spec env self h d :
  driver self = Some d ->
  username (config self) <> EmptyString -> password (config self) <> EmptyString ->
  sat (_perform_login env) self h (fun r self' evs =>
    self' = self /\
    (exists o tail, evs = ECall (CWaitUntil d 10 login_link) o :: tail) /\
    (forall c t e, In (c, t, e) (raised_waits evs) -> r = inl e)).
Proof.
  intros Hd Hu Hp.
  apply String.eqb_neq in Hu, Hp.
  unfold _perform_login. apply sat_bind, sat_get_self. wp_simpl.
  rewrite Hu, Hp. cbn [orb].
  apply sat_try_except, sat_bind. unfold self_driver at 1. apply sat_bind, sat_get_self.
  wp_simpl. rewrite Hd.
  wp_using Hd.
  all: split; [reflexivity|]; split; [eauto|]; cbn; intros c t e' Hin; intuition congruence.
Qed.

Lemma extract_bearer_token_spec env self h d :
  driver self = Some d ->
  sat (_extract_bearer_token env) self h (fun r self' evs =>
    self' = self /\ raised_waits evs = [] /\
    (forall tok, r = inr tok -> tok <> EmptyString)).
Proof.
  intros Hd. unfold _extract_bearer_token.
  wp_using Hd; try (repeat split; congruence).
  destruct (TokenPattern.search _) as [tok|] eqn:Hs; wp_all.
  - repeat split; try reflexivity. intros ? [= <-].
    eapply TokenPatternFacts.search_nonempty, Hs.
  - repeat split; congruence.
Qed.

Lemma setup_session_spec env self h d :
  driver self = Some d ->
  sat (_setup_session env) self h (fun r self' evs =>
    self' = self /\ raised_waits evs = []).
Proof. intros Hd. unfold _setup_session. wp_using Hd; auto. Qed.

(** In [authenticate], the calls of the steps are answered from their
    summaries. *)
Ltac wp_call :=
  lazymatch goal with
  | |- sat (_setup_browser ?env) ?self ?h _ =>
      eapply sat_mono; [apply setup_browser_spec|];
      let H := fresh "H" in
      intros ? ? ? [-> H];
      destruct (chrome_new env h (browser_options (config self))) eqn:?;
      destruct H as [-> ->]
  | |- sat (_accept_cookies ?env) ?self ?h _ =>
      eapply sat_mono; [eapply accept_cookies_spec; reflexivity|];
      let H := fresh "H" in
      intros ? ? ? [-> H]; cbv beta in H;
      repeat match type of H with
             | match ?x with inl _ => _ | inr _ => _ end => destruct x eqn:?
             end;
      destruct H as [-> ->]
  | |- sat (_save_error_screenshot ?env) ?self ?h _ =>
      eapply sat_mono; [apply save_error_screenshot_spec|];
      let H := fresh "H" in
      intros ? ? ? (-> & -> & H); cbn [driver] in H;
      repeat match type of H with
             | match ?x with inl _ => _ | inr _ => _ end => destruct x eqn:?
             | match ?x with Some _ => _ | None => _ end => destruct x eqn:?
             end;
      subst
  | |- sat (_perform_login ?env) ?self ?h _ =>
      first
        [ apply perform_login_no_credentials_sat; [assumption|]
        | eapply sat_mono; [eapply perform_login_spec; [reflexivity|assumption|assumption]|];
          intros ? ? ? (-> & ? & ?) ]
  | |- sat (_extract_bearer_token ?env) ?self ?h _ =>
      eapply sat_mono; [eapply extract_bearer_token_spec; reflexivity|];
      intros ? ? ? (-> & ? & ?)
  | |- sat (_setup_session ?env) ?self ?h _ =>
      eapply sat_mono; [eapply setup_session_spec; reflexivity|];
      intros ? ? ? (-> & ?)
  end.

Ltac wp_auth :=
  wp_simpl; repeat (first [wp_prim | wp_unfold | wp_call | wp_case]; wp_simpl).

(** The same, using the answers of the collaborators that are in the
    context. *)
Ltac wp_auth_known :=
  wp_simpl;
  repeat (first [wp_prim | wp_unfold | wp_call | wp_case]; wp_simpl; simplify_eq).

Lemma credentials_cases (cfg : IHKConfig) :
  (username cfg = EmptyString \/ password cfg = EmptyString) \/
  (username cfg <> EmptyString /\ password cfg <> EmptyString).
Proof.
  destruct (string_dec (username cfg) EmptyString), (string_dec (password cfg) EmptyString);
    auto.
Qed.

Lemma raised_waits_app (a b : Trace) :
  raised_waits (a ++ b) = (raised_waits a ++ raised_waits b)%list.
Proof. apply omap_app. Qed.

Lemma raised_waits_cons ev (evs : Trace) :
  raised_waits (ev :: evs) =
  (match raised_wait ev with Some x => [x] | None => [] end ++ raised_waits evs)%list.
Proof. unfold raised_waits. cbn. destruct (raised_wait ev); reflexivity. Qed.

Lemma raised_waits_nil : raised_waits [] = [].
Proof. reflexivity. Qed.

Ltac waits_in H :=
  repeat first [ rewrite raised_waits_cons in H
               | rewrite raised_waits_app in H
               | rewrite raised_waits_nil in H ];
  cbn [raised_wait app] in H;
  repeat match goal with
         | E : raised_waits _ = [] |- _ => rewrite E in H
         end;
  rewrite ?app_nil_r in H; rewrite ?in_app_iff in H; cbn [In app] in H.

(** ** Authentication *)

(** A successful [authenticate] leaves a driver, a session and a non-empty
    token in the fields, and never touches the configuration. *)
Lemma authenticate_success_state env self h :
  sat (authenticate env) self h (fun r self' evs =>
    config self' = config self /\
    (r = inr tt ->
     exists d sess tok,
       driver self' = Some d /\ session self' = Some sess /\
       bearer_token self' = Some tok /\ tok <> EmptyString)).
Proof.
  destruct (credentials_cases (config self)) as [Hcred|[Hu Hp]];
    unfold authenticate; wp_auth.
  all: split; [reflexivity|]; intros; try discriminate.
  all: subst; eauto 10.
Qed.

(** Of the waits of the flow, only the consent wait may raise without
    ending the flow, and only by timing out. *)
Lemma authenticate_waits env self h :
  sat (authenticate env) self h (fun r self' evs =>
    forall c t e, In (c, t, e) (raised_waits evs) ->
      (c = consent_button /\ t = 3 /\ is_TimeoutException e = true) \/ r = inl e).
Proof.
  destruct (credentials_cases (config self)) as [Hcred|[Hu Hp]];
    unfold authenticate; wp_auth.
  all: intros c t e' Hin; waits_in Hin.
  all: intuition (try congruence).
  all: try match goal with
    | H : forall c t e, In _ _ -> _, Hin : In _ (raised_waits _) |- _ =>
        specialize (H _ _ _ Hin); first [discriminate H | right; congruence]
    end.
Qed.

Lemma accept_cookies_timeout env self h d e :
  driver self = Some d ->
  wait_until env h d 3 consent_button = inl e ->
  is_TimeoutException e = true ->
  _accept_cookies env self h =
  (inr tt, self,
   [ECall (CWaitUntil d 3 consent_button) (Some e);
    ELog INFO "Cookie banner not found or already accepted"]).
Proof.
  intros Hd Hwait Htimeout.
  destruct (sat_exists _ _ _ _ (accept_cookies_spec env self h d Hd))
    as (r & self' & evs & E & -> & H).
  rewrite Hwait, Htimeout in H. destruct H as [-> ->]. exact E.
Qed.

Lemma authenticate_proceeds_after_consent_timeout env self h d e :
  let launched := [ECall (CChrome (browser_options (config self))) None;
                   ELog INFO "Chrome WebDriver initialized successfully"] in
  let loaded := [ECall (CGet d (base_url (config self))) None;
                 ELog INFO "Homepage loaded"] in
  chrome_new env h (browser_options (config self)) = inr d ->
  driver_get env (h ++ launched)%list d (base_url (config self)) = inr tt ->
  wait_until env (h ++ launched ++ loaded)%list d 3 consent_button = inl e ->
  is_TimeoutException e = true ->
  username (config self) <> EmptyString -> password (config self) <> EmptyString ->
  exists r self' o tail,
    authenticate env self h =
    (r, self',
     (launched ++ loaded ++
      [ECall (CWaitUntil d 3 consent_button) (Some e);
       ELog INFO "Cookie banner not found or already accepted";
       ECall (CWaitUntil d 10 login_link) o] ++ tail)%list).
Proof.
  intros launched loaded Hlaunch Hget Hwait Htimeout Hu Hp.
  cut (sat (authenticate env) self h (fun r self' evs =>
         exists o tail,
           evs = (launched ++ loaded ++
                  [ECall (CWaitUntil d 3 consent_button) (Some e);
                   ELog INFO "Cookie banner not found or already accepted";
                   ECall (CWaitUntil d 10 login_link) o] ++ tail)%list)).
  { intros H. apply sat_exists in H as (r & self' & evs & E & o & tail & ->). eauto. }
  subst launched loaded. cbn [app] in *.
  unfold authenticate. wp_auth_known.
  all: match goal with
       | H : exists o tail, _ = _ |- _ => destruct H as (o & tail & ->)
       end.
  all: cbn [app]; eauto.
Qed.

Lemma authenticate_launch_failure env self h e :
  driver self = None ->
  chrome_new env h (browser_options (config self)) = inl e ->
  let e' := mkWebDriverException ("Browser initialization failed: " ++ exn_str e) in
  authenticate env self h =
  (inl e', self,
   [ECall (CChrome (browser_options (config self))) (Some e);
    ELog ERROR ("Failed to initialize WebDriver: " ++ exn_str e);
    ELog ERROR ("Authentication failed: " ++ exn_str e')]).
Proof.
  intros Hd Hlaunch e'.
  cut (sat (authenticate env) self h (fun r self' evs =>
         r = inl e' /\ self' = self /\
         evs = [ECall (CChrome (browser_options (config self))) (Some e);
                ELog ERROR ("Failed to initialize WebDriver: " ++ exn_str e);
                ELog ERROR ("Authentication failed: " ++ exn_str e')])).
  { intros H. apply sat_exists in H as (r & self' & evs & E & -> & -> & ->). exact E. }
  unfold authenticate. wp_auth_known. auto.
Qed.

(** C1 (amended). For every configuration with an empty username or an
    empty password, [authenticate] fails and makes no login interaction
    (no wait for the sign-in link, no key entry, no submit).  The check sits
    at the start of the login step, after the browser launch, the homepage
    load and the consent step: when none of these fails, the error is the
    missing-credentials error, and one browser launch and one navigation,
    to [base_url], have been recorded. *)
Theorem authenticate_checks_credentials_at_login env self h :
  username (config self) = EmptyString \/ password (config self) = EmptyString ->
  exists e self' evs,
    authenticate env self h = (inl e, self', evs) /\
    List.filter is_login_interaction evs = [] /\
    (List.filter fatal_before_login evs = [] ->
     e = missing_credentials /\ launches evs = 1%nat /\
     navigations evs = [base_url (config self)]).
Proof.
  intros Hcred.
  cut (sat (authenticate env) self h (fun r self' evs =>
         exists e, r = inl e /\
           List.filter is_login_interaction evs = [] /\
           (List.filter fatal_before_login evs = [] ->
            e = missing_credentials /\ launches evs = 1%nat /\
            navigations evs = [base_url (config self)]))).
  { intros H. apply sat_exists in H as (r & self' & evs & E & e & -> & H). eauto. }
  unfold authenticate. wp_auth.
  all: eexists; (split; [reflexivity|]); unfold launches, navigations; cbn;
    repeat match goal with H : is_TimeoutException _ = _ |- _ => rewrite H end; cbn;
    (split; [reflexivity|]); intros Hf; try discriminate Hf; repeat split; reflexivity.
Qed.

Lemma authenticate_checks_credentials_at_login_witness :
  exists e self' evs,
    authenticate (sample_env false sample_logs sample_cookies response_ok)
      (__init__ sample_config_no_username) []
    = (inl e, self', evs) /\
    List.filter is_login_interaction evs = [] /\
    (List.filter fatal_before_login evs = [] ->
     e = missing_credentials /\ launches evs = 1%nat /\
     navigations evs = ["https://bildung.ihk.de"]).
Proof.
  apply (authenticate_checks_credentials_at_login
           (sample_env false sample_logs sample_cookies response_ok)
           (__init__ sample_config_no_username) []).
  left. reflexivity.
Defined.

(** C1, as the specification words it, fails: with an empty username the
    error is raised only after the browser has been launched and the
    homepage has been loaded. *)
Lemma fail_fast_counterexample :
  username sample_config_no_username = EmptyString /\
  (exists self' evs,
     authenticate (sample_env false sample_logs sample_cookies response_ok)
       (__init__ sample_config_no_username) []
     = (inl missing_credentials, self', evs) /\
     launches evs = 1%nat /\ navigations evs = ["https://bildung.ihk.de"]) /\
  ~ fails_before_any_browser_interaction
      (sample_env false sample_logs sample_cookies response_ok)
      (__init__ sample_config_no_username) [].
Proof.
  split; [reflexivity|].
  unfold fails_before_any_browser_interaction.
  destruct (authenticate (sample_env false sample_logs sample_cookies response_ok)
              (__init__ sample_config_no_username) []) as [[r self] evs] eqn:E.
  vm_compute in E. injection E as <- <- <-.
  split.
  - do 2 eexists. split; [reflexivity|]. split; reflexivity.
  - intros (self' & evs' & E' & Hl & _).
    injection E' as _ <-. discriminate Hl.
Qed.

(** C8. In the consent-dismissal step, when no clickable consent-accept
    control shows up within the 3-unit timeout, the step completes without
    error and without a click; the authentication flow goes on to the login
    step; and in every run of the flow a wait that raises ends the flow
    with what it raised, except for the consent wait timing out: the
    tolerated timeout is the only wait that may fail without being fatal. *)
Theorem consent_timeout_is_tolerated env :
  (forall self h d e,
     driver self = Some d ->
     wait_until env h d 3 consent_button = inl e ->
     is_TimeoutException e = true ->
     _accept_cookies env self h =
     (inr tt, self,
      [ECall (CWaitUntil d 3 consent_button) (Some e);
       ELog INFO "Cookie banner not found or already accepted"])) /\
  (forall self h d e,
     let launched := [ECall (CChrome (browser_options (config self))) None;
                      ELog INFO "Chrome WebDriver initialized successfully"] in
     let loaded := [ECall (CGet d (base_url (config self))) None;
                    ELog INFO "Homepage loaded"] in
     chrome_new env h (browser_options (config self)) = inr d ->
     driver_get env (h ++ launched)%list d (base_url (config self)) = inr tt ->
     wait_until env (h ++ launched ++ loaded)%list d 3 consent_button = inl e ->
     is_TimeoutException e = true ->
     username (config self) <> EmptyString -> password (config self) <> EmptyString ->
     exists r self' o tail,
       authenticate env self h =
       (r, self',
        (launched ++ loaded ++
         [ECall (CWaitUntil d 3 consent_button) (Some e);
          ELog INFO "Cookie banner not found or already accepted";
          ECall (CWaitUntil d 10 login_link) o] ++ tail)%list)) /\
  (forall self h r self' evs,
     authenticate env self h = (r, self', evs) ->
     forall c t e, In (c, t, e) (raised_waits evs) ->
       (c = consent_button /\ t = 3 /\ is_TimeoutException e = true) \/ r = inl e).
Proof.
  split; [|split].
  - intros self h d e. apply accept_cookies_timeout.
  - intros self h d e. apply authenticate_proceeds_after_consent_timeout.
  - intros self h r self' evs E. exact (sat_run _ _ _ _ _ _ _ (authenticate_waits env self h) E).
Qed.

Lemma consent_timeout_is_tolerated_witness :
  let env := sample_env false sample_logs sample_cookies response_ok in
  _accept_cookies env sample_self_browser_ready []
  = (inr tt, sample_self_browser_ready,
     [ECall (CWaitUntil 1%nat 3 consent_button) (Some timeout_expired);
      ELog INFO "Cookie banner not found or already accepted"]) /\
  exists r self' o tail,
    authenticate env (__init__ sample_config) [] =
    (r, self',
     ([ECall (CChrome (browser_options sample_config)) None;
       ELog INFO "Chrome WebDriver initialized successfully";
       ECall (CGet 1%nat "https://bildung.ihk.de") None;
       ELog INFO "Homepage loaded";
       ECall (CWaitUntil 1%nat 3 consent_button) (Some timeout_expired);
       ELog INFO "Cookie banner not found or already accepted";
       ECall (CWaitUntil 1%nat 10 login_link) o] ++ tail)%list).
Proof.
  intros env.
  destruct (consent_timeout_is_tolerated env) as (Hstep & Hflow & _).
  split.
  - apply (Hstep sample_self_browser_ready [] 1%nat timeout_expired); reflexivity.
  - apply (Hflow (__init__ sample_config) [] 1%nat timeout_expired);
      first [reflexivity | discriminate].
Defined.

(** ** Teardown *)

Lemma close_spec env self h :
  sat (close env) self h (fun r self' evs =>
    self' = self /\
    (driver self = None -> session self = None -> r = inr tt /\ evs = []) /\
    ((forall h' d, driver_quit env h' d = inr tt) ->
     (forall h' s, session_close env h' s = inr tt) -> r = inr tt) /\
    (forall s, r = inr tt -> session self = Some s ->
               In (ECall (CSessionClose s) None) evs)).
Proof.
  unfold close. apply sat_bind, sat_get_self. wp_simpl.
  destruct (driver self) as [d|] eqn:Hd, (session self) as [s|] eqn:Hs; wp_simpl.
  all: wp_using Hs.
  all: split; [reflexivity|]; split; [intros; first [congruence | auto]|]; split.
  all: try (intros Hq Hc; try rewrite Hq in *; try rewrite Hc in *; congruence).
  all: intros s' Hr [= <-]; try discriminate; cbn; auto.
Qed.

(** C9 (amended). [close] raises nothing of its own and never changes the
    fields.  With driver and session absent, the state in which a failed
    browser launch leaves a fresh scraper, it does nothing and returns
    normally, however often it is called.  With a driver it calls [quit]
    first, again at every call and on the same driver; with a session it
    then closes it.  It has no handler: it returns normally exactly when
    none of the teardown calls it makes raises, and otherwise ends with the
    exception of the one that raised, as its last event; an exception of
    [quit] leaves the session unclosed. *)
Theorem close_raises_only_teardown_failures env self h :
  exists r evs,
    close env self h = (r, self, evs) /\
    (driver self = None -> session self = None -> r = inr tt /\ evs = []) /\
    (r = inr tt <-> omap teardown_raised evs = []) /\
    (forall e, r = inl e ->
       omap teardown_raised evs = [e] /\ exists c, last evs = Some (ECall c (Some e))) /\
    (forall d, driver self = Some d ->
       exists tail,
         evs = ECall (CQuit d) (raised_by (driver_quit env h d)) :: tail /\
         (forall e, driver_quit env h d = inl e -> r = inl e /\ tail = [])) /\
    (forall s, session self = Some s -> r = inr tt ->
       In (ECall (CSessionClose s) None) evs) /\
    (exists r2 evs2,
       close env self (h ++ evs)%list = (r2, self, evs2) /\
       (forall d, driver self = Some d ->
          exists o tail, evs2 = ECall (CQuit d) o :: tail)) /\
    (forall e,
       driver self = None -> session self = None ->
       chrome_new env h (browser_options (config self)) = inl e ->
       exists e' evs',
         authenticate env self h = (inl e', self, evs') /\
         forall h', close env self h' = (inr tt, self, [])).
Proof.
  assert (Hsat : forall h0, sat (close env) self h0 (fun r self' evs =>
    self' = self /\
    (driver self = None -> session self = None -> r = inr tt /\ evs = []) /\
    (r = inr tt <-> omap teardown_raised evs = []) /\
    (forall e, r = inl e ->
       omap teardown_raised evs = [e] /\ exists c, last evs = Some (ECall c (Some e))) /\
    (forall d, driver self = Some d ->
       exists tail,
         evs = ECall (CQuit d) (raised_by (driver_quit env h0 d)) :: tail /\
         (forall e, driver_quit env h0 d = inl e -> r = inl e /\ tail = [])) /\
    (forall s, session self = Some s -> r = inr tt ->
       In (ECall (CSessionClose s) None) evs))).
  { intros h0. unfold close. apply sat_bind, sat_get_self. wp_simpl.
    destruct (driver self) as [d|] eqn:Hd, (session self) as [s|] eqn:Hs; wp_simpl.
    all: wp_using Hs.
    all: split; [reflexivity|].
    all: split; [intros; first [congruence | auto]|].
    all: split; [cbn; split; congruence|].
    all: split; [intros e' [= <-] || (intros e' [=]); cbn; eauto|].
    all: split;
      [intros d' Hd';
       first [ discriminate Hd'
             | injection Hd' as <-;
               repeat match goal with
                      | H : driver_quit _ _ _ = _ |- _ => rewrite H
                      end;
               eexists; (split; [reflexivity|]);
               intros e' He'; first [discriminate He' | injection He' as <-; auto] ]|].
    all: intros s' [= <-] || (intros s' [=]); intros [=] || (intros _); cbn; auto. }
  destruct (sat_exists _ _ _ _ (Hsat h)) as (r & self' & evs & E & -> & Hn & Hiff & He & Hq & Hc).
  destruct (sat_exists _ _ _ _ (Hsat (h ++ evs)%list))
    as (r2 & self2 & evs2 & E2 & -> & _ & _ & _ & Hq2 & _).
  exists r, evs. repeat (split; [assumption|]). split.
  - exists r2, evs2. split; [exact E2|].
    intros d Hd. destruct (Hq2 d Hd) as (tail & -> & _). eauto.
  - intros e Hd Hs Hlaunch. do 2 eexists. split.
    + apply authenticate_launch_failure; eassumption.
    + intros h'.
      destruct (sat_exists _ _ _ _ (Hsat h')) as (r' & self' & evs' & E' & -> & Hn' & _).
      destruct (Hn' Hd Hs) as [-> ->]. exact E'.
Qed.

Lemma close_raises_only_teardown_failures_witness :
  (exists r evs,
     close sample_env_quit_fails sample_self_authenticated []
     = (r, sample_self_authenticated, evs) /\
     (r = inr tt <-> omap teardown_raised evs = [])) /\
  (exists e' evs',
     authenticate sample_env_no_browser (__init__ sample_config) []
     = (inl e', __init__ sample_config, evs') /\
     forall h', close sample_env_no_browser (__init__ sample_config) h'
                = (inr tt, __init__ sample_config, [])).
Proof.
  split.
  - destruct (close_raises_only_teardown_failures sample_env_quit_fails
                sample_self_authenticated [])
      as (r & evs & E & _ & Hiff & _).
    exists r, evs. split; [exact E|exact Hiff].
  - destruct (close_raises_only_teardown_failures sample_env_no_browser
                (__init__ sample_config) [])
      as (r & evs & _ & _ & _ & _ & _ & _ & _ & Hlaunch).
    apply (Hlaunch chrome_not_found); reflexivity.
Defined.

(** C9, as the specification words it, fails: after a successful
    authentication against an engine whose [quit] fails, the first call of
    [close] already raises, and the session is left unclosed. *)
Lemma close_raises_counterexample :
  let env := sample_env_quit_fails in
  let '(self, h) := after_authenticate env sample_config in
  self = sample_self_authenticated /\
  close env self h
  = (inl quit_failed, self, [ECall (CQuit 1%nat) (Some quit_failed)]) /\
  ~ close_twice_raises_no_error env self h.
Proof.
  cbv zeta.
  destruct (after_authenticate _ _) as [self h] eqn:Ea.
  vm_compute in Ea. injection Ea as <- <-.
  split; [reflexivity|]. split; [reflexivity|].
  intros (self1 & evs1 & self2 & evs2 & E1 & _). discriminate E1.
Qed.

(** C10. [close] leaves the fields of the scraper as they are, whether or
    not the teardown raises.  So after a successful [authenticate] followed
    by [close], the token and the session are still in place, and a later
    [api_request] passes the guard and hands its request to the very
    session that [close] has closed. *)
Theorem close_keeps_authentication_state env :
  (forall self h, exists r evs, close env self h = (r, self, evs)) /\
  (forall self0 h0 self1 evs1 r self2 evs2 endpoint method kwargs,
     authenticate env self0 h0 = (inr tt, self1, evs1) ->
     close env self1 (h0 ++ evs1)%list = (r, self2, evs2) ->
     self2 = self1 /\
     exists sess tok,
       session self2 = Some sess /\ bearer_token self2 = Some tok /\
       tok <> EmptyString /\
       (r = inr tt -> In (ECall (CSessionClose sess) None) evs2) /\
       exists r3 self3 hd tail,
         api_request env endpoint method kwargs self2 (h0 ++ evs1 ++ evs2)%list =
         (r3, self3,
          ECall (CSessionRequest sess method
                   (api_base_url (config self2) ++ "/" ++ endpoint) hd (kw_rest kwargs))
                (raised_by r3) :: tail)).
Proof.
  split.
  - intros self h.
    destruct (sat_exists _ _ _ _ (close_spec env self h)) as (r & self' & evs & E & -> & _).
    eauto.
  - intros self0 h0 self1 evs1 r self2 evs2 endpoint method kwargs Ea Ec.
    destruct (sat_run _ _ _ _ _ _ _ (authenticate_success_state env self0 h0) Ea)
      as (_ & Hst).
    destruct (Hst eq_refl) as (d & sess & tok & _ & Hs & Ht & Hne).
    destruct (sat_run _ _ _ _ _ _ _ (close_spec env self1 (h0 ++ evs1)%list) Ec)
      as (-> & _ & _ & Hclosed).
    split; [reflexivity|].
    exists sess, tok. repeat split; try assumption.
    + intros Hr. apply Hclosed; assumption.
    + destruct (sat_exists _ _ _ _
                  (api_request_run env endpoint method kwargs self1
                     (h0 ++ evs1 ++ evs2)%list sess tok Hs Ht Hne))
        as (r3 & self3 & evs3 & E3 & jar & tail & _ & _ & -> & _).
      eauto.
Qed.

Lemma close_keeps_authentication_state_witness :
  let env := sample_env false sample_logs sample_cookies response_ok in
  exists r3 self3 hd tail,
    api_request env "anwender/berufsbilder/check" "GET" no_kwargs
      sample_self_authenticated
      (snd (after_authenticate env sample_config)
       ++ [ECall (CQuit 1%nat) None; ELog INFO "WebDriver closed";
           ECall (CSessionClose {| cookies := list_to_map [("a", "1"); ("b", "2")] |}) None;
           ELog INFO "Requests session closed"])%list
    = (r3, self3,
       ECall (CSessionRequest {| cookies := list_to_map [("a", "1"); ("b", "2")] |} "GET"
                "https://service.ihk.de/anwender/anwender-api/v1/anwender/berufsbilder/check"
                hd [])
             (raised_by r3) :: tail).
Proof.
  intros env.
  destruct (close_keeps_authentication_state env) as [_ Hafter].
  destruct (Hafter (__init__ sample_config) [] sample_self_authenticated
              (snd (after_authenticate env sample_config))
              (inr tt) sample_self_authenticated
              [ECall (CQuit 1%nat) None; ELog INFO "WebDriver closed";
               ECall (CSessionClose {| cookies := list_to_map [("a", "1"); ("b", "2")] |})
                 None;
               ELog INFO "Requests session closed"]
              "anwender/berufsbilder/check" "GET" no_kwargs)
    as (_ & sess & tok & Hs & _ & _ & _ & r3 & self3 & hd & tail & E).
  - vm_compute. reflexivity.
  - vm_compute. reflexivity.
  - injection Hs as <-. exists r3, self3, hd, tail. exact E.
Defined.

(** ** Token extraction *)

(** Once the page has loaded and the performance log has been read,
    [_extract_bearer_token] is the pattern search on the serialized log. *)
Lemma extract_bearer_token_run env self h d logs :
  driver self = Some d ->
  let page := base_url (config self) ++ "/service/berufsbilder-check" in
  let fetched := [ECall (CGet d page) None; ECall (CSleep 5) None] in
  let log_data := json_dumps env logs in
  let measured :=
    ELog INFO ("Extracted " ++ pretty (String.length log_data)
               ++ " characters of log data") in
  driver_get env h d page = inr tt ->
  get_log env (h ++ fetched)%list d "performance" = inr logs ->
  _extract_bearer_token env self h =
  match TokenPattern.search log_data with
  | Some token =>
      (inr token, self,
       (fetched ++
        [ECall (CGetLog d "performance") None; measured;
         ELog INFO ("Bearer token extracted: " ++ py_prefix 15 token ++ "..."
                    ++ py_suffix 15 token)])%list)
  | None =>
      (inl token_not_found, self,
       (fetched ++
        [ECall (CGetLog d "performance") None; measured;
         ELog ERROR ("Token extraction failed: " ++ exn_str token_not_found)])%list)
  end.
Proof.
  intros Hd page fetched log_data measured Hget Hlog.
  cut (sat (_extract_bearer_token env) self h (fun r self' evs =>
         (r, self', evs) =
         match TokenPattern.search log_data with
         | Some token =>
             (inr token, self,
              (fetched ++
               [ECall (CGetLog d "performance") None; measured;
                ELog INFO ("Bearer token extracted: " ++ py_prefix 15 token ++ "..."
                           ++ py_suffix 15 token)])%list)
         | None =>
             (inl token_not_found, self,
              (fetched ++
               [ECall (CGetLog d "performance") None; measured;
                ELog ERROR ("Token extraction failed: "
                            ++ exn_str token_not_found)])%list)
         end)).
  { intros H. apply sat_exists in H as (r & self' & evs & E & Heq).
    rewrite E. exact Heq. }
  subst fetched measured. cbn [app].
  unfold _extract_bearer_token.
  apply sat_try_except, sat_bind, sat_get_self. wp_simpl.
  apply sat_bind. unfold self_driver. apply sat_bind, sat_get_self. wp_simpl.
  rewrite Hd. apply sat_ret. wp_simpl.
  apply sat_bind, sat_extern. fold page. rewrite Hget. wp_simpl.
  apply sat_bind, sat_extern. wp_simpl.
  apply sat_bind. unfold self_driver. apply sat_bind, sat_get_self. wp_simpl.
  rewrite Hd. apply sat_ret. wp_simpl.
  apply sat_bind, sat_extern. rewrite Hlog. wp_simpl.
  apply sat_bind, sat_log. wp_simpl. fold log_data.
  destruct (TokenPattern.search log_data) as [token|]; wp_all; reflexivity.
Qed.

(** C2. For every serialized telemetry log in which the pattern occurs,
    token extraction returns a token, and it is the token of the first
    occurrence in log order: when the log reads [pre], then [Bearer ], then
    the token (a maximal non-empty run of characters of the class), and no
    occurrence of the pattern starts before that one, the method returns
    that token.  The two examples of the claim are instances: one [Bearer
    abc.def-123_ABC] gives [abc.def-123_ABC], and of two tokens the earlier
    one is returned whatever follows it. *)
Theorem extract_returns_first_token env self h d logs :
  driver self = Some d ->
  driver_get env h d (base_url (config self) ++ "/service/berufsbilder-check") = inr tt ->
  get_log env
    (h ++ [ECall (CGet d (base_url (config self) ++ "/service/berufsbilder-check")) None;
           ECall (CSleep 5) None])%list d "performance" = inr logs ->
  (TokenPattern.occurs (json_dumps env logs) ->
   exists tok evs, _extract_bearer_token env self h = (inr tok, self, evs)) /\
  (forall pre tok post,
     json_dumps env logs = pre ++ "Bearer " ++ tok ++ post ->
     tok <> EmptyString ->
     TokenPattern.all_token_chars tok = true ->
     TokenPattern.stops_token post = true ->
     (forall pre', TokenPattern.occurs_at pre' (json_dumps env logs) ->
                   (String.length pre <= String.length pre')%nat) ->
     exists evs, _extract_bearer_token env self h = (inr tok, self, evs)).
Proof.
  intros Hd Hget Hlog.
  rewrite (extract_bearer_token_run env self h d logs Hd Hget Hlog). cbv zeta.
  split.
  - intros Hocc.
    destruct (TokenPattern.search (json_dumps env logs)) as [tok|] eqn:Hs; [eauto|].
    apply TokenPatternFacts.search_None in Hs. contradiction.
  - intros pre tok post Hdata Hne Hall Hstop Hfirst.
    assert (Hs : TokenPattern.search (json_dumps env logs) = Some tok).
    { rewrite Hdata in *. apply TokenPatternFacts.search_first; assumption. }
    rewrite Hs. eauto.
Qed.

Lemma extract_returns_first_token_witness :
  (exists evs,
     _extract_bearer_token (sample_env false sample_logs sample_cookies response_ok)
       sample_self_browser_ready []
     = (inr "abc.def-123_ABC", sample_self_browser_ready, evs)) /\
  (exists evs,
     _extract_bearer_token
       (sample_env false sample_logs_two_tokens sample_cookies response_ok)
       sample_self_browser_ready []
     = (inr "first.tok_1", sample_self_browser_ready, evs)).
Proof.
  split.
  - apply (extract_returns_first_token
             (sample_env false sample_logs sample_cookies response_ok)
             sample_self_browser_ready [] 1%nat sample_logs
             eq_refl eq_refl eq_refl)
      with (pre := substring 0 72 (ascii_json_dumps sample_logs))
           (post := substring 94 100 (ascii_json_dumps sample_logs));
      try reflexivity.
    + discriminate.
    + apply TokenPatternFacts.no_match_before_sound. vm_compute. reflexivity.
  - apply (extract_returns_first_token
             (sample_env false sample_logs_two_tokens sample_cookies response_ok)
             sample_self_browser_ready [] 1%nat sample_logs_two_tokens
             eq_refl eq_refl eq_refl)
      with (pre := substring 0 72 (ascii_json_dumps sample_logs_two_tokens))
           (post := substring 90 500 (ascii_json_dumps sample_logs_two_tokens));
      try reflexivity.
    + discriminate.
    + apply TokenPatternFacts.no_match_before_sound. vm_compute. reflexivity.
Defined.

(** C3. Token extraction fails with the token-not-found error exactly
    when the serialized telemetry log contains no match of the pattern; in
    particular a log without the substring [Bearer ] makes it fail that
    way, and a token that is returned is never empty. *)
Theorem extract_fails_iff_no_match env self h d logs :
  driver self = Some d ->
  driver_get env h d (base_url (config self) ++ "/service/berufsbilder-check") = inr tt ->
  get_log env
    (h ++ [ECall (CGet d (base_url (config self) ++ "/service/berufsbilder-check")) None;
           ECall (CSleep 5) None])%list d "performance" = inr logs ->
  exists r evs,
    _extract_bearer_token env self h = (r, self, evs) /\
    (r = inl token_not_found <-> ~ TokenPattern.occurs (json_dumps env logs)) /\
    ((forall a b, json_dumps env logs <> a ++ "Bearer " ++ b) -> r = inl token_not_found) /\
    (forall tok, r = inr tok -> tok <> EmptyString).
Proof.
  intros Hd Hget Hlog.
  rewrite (extract_bearer_token_run env self h d logs Hd Hget Hlog).
  destruct (TokenPattern.search (json_dumps env logs)) as [tok|] eqn:Hs.
  - do 2 eexists. split; [reflexivity|]. split; [|split].
    + split; [discriminate|]. intros Hno.
      apply TokenPatternFacts.search_None in Hno. congruence.
    + intros Hno. apply TokenPatternFacts.no_literal_no_occurrence in Hno.
      apply TokenPatternFacts.search_None in Hno. congruence.
    + intros ? [= <-]. eapply TokenPatternFacts.search_nonempty, Hs.
  - do 2 eexists. split; [reflexivity|]. split; [|split].
    + split; [intros _; apply TokenPatternFacts.search_None, Hs | reflexivity].
    + reflexivity.
    + discriminate.
Qed.

Lemma extract_fails_iff_no_match_witness :
  exists evs,
    _extract_bearer_token
      (sample_env false sample_logs_no_token sample_cookies response_ok)
      sample_self_browser_ready []
    = (inl token_not_found, sample_self_browser_ready, evs).
Proof.
  destruct (extract_fails_iff_no_match
              (sample_env false sample_logs_no_token sample_cookies response_ok)
              sample_self_browser_ready [] 1%nat sample_logs_no_token
              eq_refl eq_refl eq_refl)
    as (r & evs & E & Hiff & _).
  exists evs. rewrite E. f_equal. f_equal. apply Hiff.
  apply TokenPatternFacts.search_None. vm_compute. reflexivity.
Defined.

(** * Further properties of the scraper *)

Module TokenPatternMore.
Import TokenPattern TokenPatternFacts.

Lemma take_token_split s :
  exists post, s = take_token s ++ post /\
    all_token_chars (take_token s) = true /\ stops_token post = true.
Proof.
  induction s as [|c s (post & Hs & Hall & Hstop)].
  - exists EmptyString. auto.
  - cbn [take_token]. destruct (is_token_char c) eqn:Hc.
    + exists post. rewrite append_cons. cbn [all_token_chars]. rewrite Hc, Hall.
      split; [congruence | auto].
    + exists (String c s). rewrite append_nil. cbn [stops_token]. rewrite Hc. auto.
Qed.

Lemma match_here_Some s tok :
  match_here s = Some tok ->
  exists post, s = literal ++ tok ++ post /\ tok <> EmptyString /\
    all_token_chars tok = true /\ stops_token post = true.
Proof.
  unfold match_here. destruct (strip_prefix literal s) as [rest|] eqn:Hp; [|discriminate].
  apply strip_prefix_Some in Hp. subst s.
  destruct (take_token_split rest) as (post & Hrest & Hall & Hstop).
  destruct (take_token rest) as [|c t] eqn:Ht; [discriminate|].
  intros [= <-]. exists post. rewrite Hrest at 1. repeat split; auto; discriminate.
Qed.

(** What [search] finds is in the text: right after the first place where
    the literal is followed by a class character, and as long as the class
    characters go. *)
Lemma search_sound s : forall tok,
  search s = Some tok ->
  exists pre post,
    s = pre ++ literal ++ tok ++ post /\ tok <> EmptyString /\
    all_token_chars tok = true /\ stops_token post = true /\
    forall pre', occurs_at pre' s -> (String.length pre <= String.length pre')%nat.
Proof.
  induction s as [|a s IH]; intros tok Hs; cbn [search] in Hs.
  - unfold match_here in Hs. simpl in Hs. discriminate.
  - destruct (match_here (String a s)) as [t|] eqn:Hm.
    + injection Hs as ->. apply match_here_Some in Hm as (post & E & Hne & Hall & Hstop).
      exists EmptyString, post. rewrite append_nil. repeat split; auto.
      intros; simpl; lia.
    + destruct (IH tok Hs) as (pre & post & E & Hne & Hall & Hstop & Hfirst).
      exists (String a pre), post. rewrite append_cons, <- E. repeat split; auto.
      intros pre' Ho. destruct pre' as [|b pre'].
      * apply match_here_occurs in Hm. contradiction.
      * destruct (occurs_at_head _ _ _ Ho) as (s' & Es). injection Es as -> ->.
        apply occurs_at_cons in Ho. apply Hfirst in Ho. simpl. lia.
Qed.

(** A well-formed token on its own after the literal is found again. *)
Lemma search_literal_token tok :
  tok <> EmptyString -> all_token_chars tok = true ->
  search (literal ++ tok) = Some tok.
Proof.
  intros Hne Hall.
  pose proof (search_first EmptyString tok EmptyString Hne Hall eq_refl) as H.
  rewrite append_nil in H.
  assert (E : tok ++ EmptyString = tok).
  { clear. induction tok as [|c t IH]; [reflexivity|]. rewrite append_cons, IH. reflexivity. }
  rewrite E in H. apply H. intros; simpl; lia.
Qed.

End TokenPatternMore.

Lemma length_substring_0 n : forall s,
  String.length (substring 0 n s) = Nat.min n (String.length s).
Proof.
  induction n as [|n IH]; intros [|c s]; simpl; auto.
Qed.

Lemma substring_0_prefix n : forall s, exists rest, s = substring 0 n s ++ rest.
Proof.
  induction n as [|n IH]; intros [|c s].
  - exists EmptyString. reflexivity.
  - exists (String c s). reflexivity.
  - exists EmptyString. reflexivity.
  - destruct (IH s) as (rest & E). exists rest. cbn [substring].
    rewrite TokenPatternFacts.append_cons, <- E. reflexivity.
Qed.

Lemma substring_0_all n : forall s, (String.length s <= n)%nat -> substring 0 n s = s.
Proof.
  induction n as [|n IH]; intros [|c s] H; simpl in *; try reflexivity; try lia.
  rewrite IH by lia. reflexivity.
Qed.

Lemma substring_skip k n : forall s,
  (k <= String.length s)%nat -> (String.length s - k <= n)%nat ->
  exists front, s = front ++ substring k n s /\ String.length front = k /\
                String.length (substring k n s) = (String.length s - k)%nat.
Proof.
  induction k as [|k IH]; intros s Hk Hn.
  - exists EmptyString. rewrite substring_0_all by lia. simpl. repeat split; lia.
  - destruct s as [|c s]; simpl in Hk; [lia|].
    destruct (IH s) as (front & E & Hl & Hl'); [lia | simpl in Hn; lia |].
    exists (String c front). cbn [substring].
    rewrite TokenPatternFacts.append_cons, <- E. simpl. repeat split; lia.
Qed.

(** Python's slices [t[:n]] and [t[-n:]]. *)
Lemma token_log_excerpt n t :
  (0 < n)%nat ->
  String.length (py_prefix n t) = Nat.min n (String.length t) /\
  String.length (py_suffix n t) = Nat.min n (String.length t) /\
  (exists rest, t = py_prefix n t ++ rest) /\
  (exists front, t = front ++ py_suffix n t) /\
  ((String.length t <= n)%nat -> py_prefix n t = t /\ py_suffix n t = t).
Proof.
  intros Hn. unfold py_prefix, py_suffix.
  destruct (substring_skip (String.length t - n) n t) as (front & E & Hl & Hl'); try lia.
  split; [apply length_substring_0|]. split; [lia|].
  split; [apply substring_0_prefix|]. split; [eauto|].
  intros Hle. split; [apply substring_0_all; exact Hle|].
  replace (String.length t - n)%nat with 0%nat by lia. apply substring_0_all. exact Hle.
Qed.

Section EventKinds.

Context (P : Event -> bool).

Lemma only_emits_ret {A} (a : A) : only_emits P (ret a).
Proof. intros self h. apply sat_ret. constructor. Qed.

Lemma only_emits_raise {A} (e : Exn) : only_emits P (@raise A e).
Proof. intros self h. apply sat_raise. constructor. Qed.

Lemma only_emits_get_self : only_emits P get_self.
Proof. intros self h. apply sat_get_self. constructor. Qed.

Lemma only_emits_put_self self' : only_emits P (put_self self').
Proof. intros self h. apply sat_put_self. constructor. Qed.

Lemma only_emits_log lvl msg :
  P (ELog lvl msg) = true -> only_emits P (log lvl msg).
Proof. intros H self h. apply sat_log. repeat constructor. exact H. Qed.

Lemma only_emits_extern {A} c (answer : Trace -> Exn + A) :
  (forall o, P (ECall c o) = true) -> only_emits P (extern c answer).
Proof. intros H self h. apply sat_extern. repeat constructor. apply H. Qed.

Lemma only_emits_bind {A B} (m : M A) (f : A -> M B) :
  only_emits P m -> (forall a, only_emits P (f a)) -> only_emits P (bind m f).
Proof.
  intros Hm Hf self h. apply sat_bind. eapply sat_mono; [apply Hm|].
  intros [e|a] self1 ev1 H1; [exact H1|].
  eapply sat_mono; [apply Hf|]. intros r2 self2 ev2 H2. cbv beta.
  apply Forall_app. split; assumption.
Qed.

Lemma only_emits_try_except {A} catches (m : M A) (handler : Exn -> M A) :
  only_emits P m -> (forall e, only_emits P (handler e)) ->
  only_emits P (try_except catches m handler).
Proof.
  intros Hm Hh self h. apply sat_try_except. eapply sat_mono; [apply Hm|].
  intros [e|a] self1 ev1 H1; [|exact H1].
  destruct (catches e); [|exact H1].
  eapply sat_mono; [apply Hh|]. intros r2 self2 ev2 H2. cbv beta.
  apply Forall_app. split; assumption.
Qed.

Lemma only_emits_session_request_call env s method target hd rest :
  (forall o, P (ECall (CSessionRequest s method target hd rest) o) = true) ->
  only_emits P (session_request_call env s method target hd rest).
Proof.
  intros H self h. apply sat_session_request_call. intros r jar _.
  repeat constructor. apply H.
Qed.

End EventKinds.

Lemma only_emits_weaken {A} (P Q : Event -> bool) (m : M A) :
  (forall ev, P ev = true -> Q ev = true) -> only_emits P m -> only_emits Q m.
Proof.
  intros HPQ Hm self h. eapply sat_mono; [apply Hm|]. cbv beta.
  intros _ _ evs H. eapply Forall_impl; [exact H|]. exact HPQ.
Qed.

(** Events of one kind contain none of a kind disjoint from it. *)
Lemma filter_disjoint (P Q : Event -> bool) (evs : Trace) :
  (forall ev, P ev = true -> Q ev = false) ->
  Forall (fun ev => P ev = true) evs -> List.filter Q evs = [].
Proof.
  intros Hd H. induction H as [|ev evs Hev _ IH]; [reflexivity|].
  cbn [List.filter]. rewrite (Hd ev Hev). exact IH.
Qed.

Lemma omap_disjoint {B} (P : Event -> bool) (f : Event -> option B) (evs : Trace) :
  (forall ev, P ev = true -> f ev = None) ->
  Forall (fun ev => P ev = true) evs -> omap f evs = [].
Proof.
  intros Hd H. induction H as [|ev evs Hev _ IH]; [reflexivity|].
  cbn. rewrite (Hd ev Hev). exact IH.
Qed.

(** The structure of a method decides the kinds of its events: no case
    analysis on the answers of the collaborators is needed. *)
Ltac emits_step :=
  lazymatch goal with
  | |- only_emits _ (bind _ _) => apply only_emits_bind; [|intros ?]
  | |- only_emits _ (try_except _ _ _) => apply only_emits_try_except; [|intros ?]
  | |- only_emits _ (ret _) => apply only_emits_ret
  | |- only_emits _ (raise _) => apply only_emits_raise
  | |- only_emits _ get_self => apply only_emits_get_self
  | |- only_emits _ (put_self _) => apply only_emits_put_self
  | |- only_emits _ (log _ _) => apply only_emits_log; reflexivity
  | |- only_emits _ (extern _ _) => apply only_emits_extern; intros ?; reflexivity
  | |- only_emits _ (session_request_call _ _ _ _ _ _) =>
      apply only_emits_session_request_call; intros ?; reflexivity
  | |- only_emits _ (self_driver _) => unfold self_driver
  | |- only_emits _ (click_kc_login _) => unfold click_kc_login
  | |- only_emits _ (set_driver _) => unfold set_driver
  | |- only_emits _ (set_bearer_token _) => unfold set_bearer_token
  | |- only_emits _ (set_session _) => unfold set_session
  | |- only_emits _ (response_json _) => unfold response_json
  | |- only_emits _ (raise_for_status _) => unfold raise_for_status
  | |- only_emits _ (match ?x with _ => _ end) => destruct x
  | |- only_emits _ (if ?b then _ else _) => destruct b
  end.

Ltac emits := repeat emits_step.

Lemma accept_cookies_emits env : only_emits page_event (_accept_cookies env).
Proof. unfold _accept_cookies. emits. Qed.

Lemma perform_login_emits env : only_emits page_event (_perform_login env).
Proof. unfold _perform_login. emits. Qed.

Lemma extract_bearer_token_emits env :
  only_emits post_launch_event (_extract_bearer_token env).
Proof. unfold _extract_bearer_token. emits. Qed.

Lemma setup_session_emits env : only_emits post_launch_event (_setup_session env).
Proof. unfold _setup_session. emits. Qed.

Lemma save_error_screenshot_emits env :
  only_emits post_launch_event (_save_error_screenshot env).
Proof. unfold _save_error_screenshot. emits. Qed.

Lemma page_event_post_launch ev : page_event ev = true -> post_launch_event ev = true.
Proof. destruct ev as [[] ?| |]; cbn; congruence. Qed.

Lemma api_request_emits env endpoint method kwargs :
  only_emits api_event (api_request env endpoint method kwargs).
Proof. unfold api_request. emits. Qed.

Lemma get_berufsbilder_check_emits env : only_emits api_event (get_berufsbilder_check env).
Proof.
  unfold get_berufsbilder_check.
  apply only_emits_bind; [apply api_request_emits|]. intros resp. emits.
Qed.

Ltac emits_call :=
  lazymatch goal with
  | |- only_emits post_launch_event (_accept_cookies _) =>
      eapply only_emits_weaken; [exact page_event_post_launch|apply accept_cookies_emits]
  | |- only_emits post_launch_event (_perform_login _) =>
      eapply only_emits_weaken; [exact page_event_post_launch|apply perform_login_emits]
  | |- only_emits post_launch_event (_extract_bearer_token _) =>
      apply extract_bearer_token_emits
  | |- only_emits post_launch_event (_setup_session _) => apply setup_session_emits
  | |- only_emits post_launch_event (_save_error_screenshot _) =>
      apply save_error_screenshot_emits
  end.

Ltac emits_auth := repeat first [emits_call | emits_step].

Lemma sat_of_emits {A} (P : Event -> bool) (m : M A) self h
    (Q : Exn + A -> IHKScraper -> Trace -> Prop) :
  only_emits P m ->
  (forall r s evs, Forall (fun ev => P ev = true) evs -> Q r s evs) ->
  sat m self h Q.
Proof. intros Hm HQ. eapply sat_mono; [apply Hm|]. exact HQ. Qed.

Lemma launches_app (a b : Trace) : launches (a ++ b) = (launches a + launches b)%nat.
Proof. unfold launches. rewrite List.filter_app, length_app. reflexivity. Qed.

Lemma post_launch_no_launch evs :
  Forall (fun ev => post_launch_event ev = true) evs -> launches evs = 0%nat.
Proof.
  intros H. unfold launches. rewrite (filter_disjoint post_launch_event is_launch); auto.
  intros ev Hev. unfold post_launch_event in Hev.
  apply andb_true_iff in Hev as [_ Hev]. apply negb_true_iff in Hev. exact Hev.
Qed.

Lemma post_launch_authentication ev :
  post_launch_event ev = true -> authentication_event ev = true.
Proof. unfold post_launch_event. intros H. apply andb_true_iff in H as [H _]. exact H. Qed.

(** X8. However it ends, [authenticate] launches the browser exactly once,
    never hands a request to an HTTP session, and never quits the browser
    or closes a session: all its events are browser interactions, the
    settle delay and log records. *)
Theorem authenticate_launches_once env self h r self' evs :
  authenticate env self h = (r, self', evs) ->
  Forall (fun ev => authentication_event ev = true) evs /\
  launches evs = 1%nat /\
  List.filter is_request evs = [].
Proof.
  intros E.
  cut (Forall (fun ev => authentication_event ev = true) evs /\ launches evs = 1%nat).
  { intros [Hall Hone]. repeat split; auto.
    apply (filter_disjoint authentication_event); [|exact Hall].
    intros [[] ?| |]; cbn; congruence. }
  apply (sat_run (authenticate env) self h
           (fun _ _ evs => Forall (fun ev => authentication_event ev = true) evs /\
                           launches evs = 1%nat) r self' evs); [|exact E].
  unfold authenticate. apply sat_try_except, sat_bind.
  eapply sat_mono; [apply setup_browser_spec|].
  assert (Hhandler : forall e s' h' (Q : Exn + unit -> IHKScraper -> Trace -> Prop),
            (forall r s evs, Forall (fun ev => post_launch_event ev = true) evs -> Q r s evs) ->
            sat (log ERROR ("Authentication failed: " ++ exn_str e) ;;
                 _save_error_screenshot env ;; raise e) s' h' Q).
  { intros e s' h' Q HQ. apply (sat_of_emits post_launch_event); [emits_auth|exact HQ]. }
  intros r1 s1 ev1 [-> H1]. cbv beta.
  destruct (chrome_new env h (browser_options (config self))) as [e|d];
    destruct H1 as [-> ->]; cbn [is_Exception].
  - apply Hhandler. intros r2 s2 ev2 H2. split.
    + apply Forall_app. split; [repeat constructor|].
      eapply Forall_impl; [exact H2|]. exact post_launch_authentication.
    + rewrite launches_app, (post_launch_no_launch ev2 H2). reflexivity.
  - apply (sat_of_emits post_launch_event); [emits_auth|].
    intros r2 s2 ev2 H2.
    assert (Hdone : forall ev3, Forall (fun ev => post_launch_event ev = true) ev3 ->
              Forall (fun ev => authentication_event ev = true)
                (([ECall (CChrome (browser_options (config self))) None;
                   ELog INFO "Chrome WebDriver initialized successfully"] ++ ev2) ++ ev3)
              /\ launches
                   (([ECall (CChrome (browser_options (config self))) None;
                      ELog INFO "Chrome WebDriver initialized successfully"] ++ ev2) ++ ev3)
                 = 1%nat).
    { intros ev3 H3. split.
      - rewrite !Forall_app. repeat split; [repeat constructor| |];
          (eapply Forall_impl; [eassumption|exact post_launch_authentication]).
      - rewrite !launches_app, (post_launch_no_launch ev2 H2), (post_launch_no_launch ev3 H3).
        reflexivity. }
    destruct r2 as [e|[]].
    + apply Hhandler. intros r3 s3 ev3 H3. apply Hdone, H3.
    + specialize (Hdone [] ltac:(constructor)). rewrite app_nil_r in Hdone. exact Hdone.
Qed.

(** X11. [_save_error_screenshot] never raises and changes no field.  Without
    a driver it does nothing; with one it makes one [save_screenshot] call
    for [error_screenshot.png] followed by one log record, a warning when
    the call raised and an info record otherwise. *)
Theorem save_error_screenshot_never_raises env self h :
  exists evs,
    _save_error_screenshot env self h = (inr tt, self, evs) /\
    (driver self = None -> evs = []) /\
    (forall d, driver self = Some d ->
       exists o lvl msg,
         evs = [ECall (CSaveScreenshot d "error_screenshot.png") o; ELog lvl msg] /\
         o = raised_by (save_screenshot env h d "error_screenshot.png") /\
         lvl = match o with Some _ => WARNING | None => INFO end).
Proof.
  destruct (sat_exists _ _ _ _ (save_error_screenshot_spec env self h))
    as (r & self' & evs & E & -> & -> & H).
  exists evs. split; [exact E|].
  destruct (driver self) as [d|].
  - split; [discriminate|]. intros d' [= <-].
    destruct (save_screenshot env h d "error_screenshot.png") as [e|b]; subst evs;
      do 3 eexists; repeat split.
  - split; [auto|discriminate].
Qed.

(** The handler of [authenticate]. *)
Lemma authenticate_handler_run env e self h :
  exists shot,
    (log ERROR ("Authentication failed: " ++ exn_str e) ;;
     _save_error_screenshot env ;; (raise e : M unit)) self h
    = (inl e, self, ELog ERROR ("Authentication failed: " ++ exn_str e) :: shot) /\
    _save_error_screenshot env self
      (h ++ [ELog ERROR ("Authentication failed: " ++ exn_str e)])%list
    = (inr tt, self, shot).
Proof.
  destruct (sat_exists _ _ _ _
              (save_error_screenshot_spec env self
                 (h ++ [ELog ERROR ("Authentication failed: " ++ exn_str e)])%list))
    as (r & self' & shot & E & -> & -> & _).
  exists shot. split; [|exact E].
  unfold bind at 1. cbn [log]. unfold bind at 1. rewrite E.
  cbn. rewrite app_nil_r. reflexivity.
Qed.

(** X9. When [authenticate] fails, the exception it ends with is the one that
    its handler logged: the events end with the record [Authentication
    failed: ] and the text of that exception, followed by the events of
    [_save_error_screenshot], which returned normally. *)
Theorem authenticate_failure_is_logged_and_reraised env self h e self' evs :
  authenticate env self h = (inl e, self', evs) ->
  exists before shot,
    evs = (before ++ ELog ERROR ("Authentication failed: " ++ exn_str e) :: shot)%list /\
    _save_error_screenshot env self'
      (h ++ before ++ [ELog ERROR ("Authentication failed: " ++ exn_str e)])%list
    = (inr tt, self', shot).
Proof.
  unfold authenticate, try_except.
  destruct (bind (_setup_browser env) _ self h) as [[[e0|[]] s1] ev1]; [|discriminate].
  cbn [is_Exception].
  destruct (authenticate_handler_run env e0 s1 (h ++ ev1)%list) as (shot & -> & Hshot).
  intros [= <- <- <-]. exists ev1, shot. split; [reflexivity|].
  rewrite <- app_assoc in Hshot. exact Hshot.
Qed.

(** X10. A failed [authenticate] leaves the session field and the
    configuration as they were: the session is assigned last.  On a scraper
    that had no session, the API methods therefore still refuse with the
    not-authenticated error and emit nothing. *)
Theorem failed_authenticate_keeps_session env self h e self' evs :
  authenticate env self h = (inl e, self', evs) ->
  session self' = session self /\ config self' = config self /\
  (session self = None ->
   forall endpoint method kwargs h',
     api_request env endpoint method kwargs self' h' = (inl not_authenticated, self', []) /\
     get_berufsbilder_check env self' h' = (inl not_authenticated, self', [])).
Proof.
  intros E.
  assert (Hsat : sat (authenticate env) self h
                   (fun r s _ => forall e, r = inl e ->
                      session s = session self /\ config s = config self)).
  { destruct (credentials_cases (config self)) as [Hcred|[Hu Hp]];
      unfold authenticate; wp_auth.
    all: intros ? ?; try discriminate; split; reflexivity. }
  destruct (sat_run _ _ _ _ _ _ _ Hsat E e eq_refl) as [Hs Hc].
  repeat split; auto.
  - apply api_request_guard. left. congruence.
  - unfold get_berufsbilder_check, bind.
    rewrite api_request_guard by (left; congruence). reflexivity.
Qed.

(** X2. [_accept_cookies] changes no field.  A timeout of the wait or of the
    click is swallowed: the method returns normally with the "not found"
    record.  Any other exception of these two calls leaves the method
    unchanged and without a log record.  When no call raises, the events
    are the wait, the click on the element found, and the "accepted"
    record. *)
Theorem accept_cookies_swallows_only_timeouts env self h d :
  driver self = Some d ->
  exists r evs,
    _accept_cookies env self h = (r, self, evs) /\
    (forall c e, In (ECall c (Some e)) evs ->
       (is_TimeoutException e = true /\ r = inr tt /\
        In (ELog INFO "Cookie banner not found or already accepted") evs) \/
       (is_TimeoutException e = false /\ r = inl e /\
        forall lvl msg, ~ In (ELog lvl msg) evs)) /\
    ((forall c e, ~ In (ECall c (Some e)) evs) ->
     r = inr tt /\ exists b,
       evs = [ECall (CWaitUntil d 3 consent_button) None; ECall (CClick b) None;
              ELog INFO "Cookie consent accepted"]).
Proof.
  intros Hd.
  destruct (sat_exists _ _ _ _ (accept_cookies_spec env self h d Hd))
    as (r & self' & evs & E & -> & H).
  exists r, evs. split; [exact E|].
  destruct (wait_until env h d 3 consent_button) as [e|b].
  - destruct H as [-> ->]. split.
    + intros c e' Hin. destruct (is_TimeoutException e) eqn:Ht; cbn in Hin.
      * destruct Hin as [[= <- <-]|[[=]|[]]]. left. rewrite Ht. repeat split; cbn; tauto.
      * destruct Hin as [[= <- <-]|[]]. right. rewrite Ht. repeat split.
        intros lvl msg [[=]|[]].
    + intros Hno. exfalso. apply (Hno (CWaitUntil d 3 consent_button) e). left. reflexivity.
  - destruct (element_click env _ b) as [e|[]].
    + destruct H as [-> ->]. split.
      * intros c e' Hin. destruct (is_TimeoutException e) eqn:Ht; cbn in Hin.
        -- destruct Hin as [[=]|[[= <- <-]|[[=]|[]]]]. left. rewrite Ht. repeat split; cbn; tauto.
        -- destruct Hin as [[=]|[[= <- <-]|[]]]. right. rewrite Ht. repeat split.
           intros lvl msg [[=]|[[=]|[]]].
      * intros Hno. exfalso. apply (Hno (CClick b) e). right. left. reflexivity.
    + destruct H as [-> ->]. split.
      * intros c e' Hin. cbn in Hin. destruct Hin as [[=]|[[=]|[[=]|[]]]].
      * intros _. eauto.
Qed.

(** X1. [_setup_browser] emits exactly the engine launch and one log record
    and changes no field.  When the launch succeeds the engine's driver is
    returned; when it raises, whatever the class of the exception, it is
    replaced by a [WebDriverException] whose text is [Browser initialization
    failed: ] followed by the text of the original.  The options hold
    [--headless] exactly when the configuration asks for it, and always
    switch the performance log on. *)
Theorem setup_browser_outcomes env self h :
  exists r o,
    _setup_browser env self h
    = (r, self,
       [ECall (CChrome (browser_options (config self))) o;
        ELog (match o with Some _ => ERROR | None => INFO end)
             (match o with
              | Some e => "Failed to initialize WebDriver: " ++ exn_str e
              | None => "Chrome WebDriver initialized successfully"
              end)]) /\
    (forall d, chrome_new env h (browser_options (config self)) = inr d ->
               r = inr d /\ o = None) /\
    (forall e, chrome_new env h (browser_options (config self)) = inl e ->
               o = Some e /\
               exists e', r = inl e' /\ exn_class e' = WebDriverException /\
                 exn_str e' = "Message: Browser initialization failed: " ++ exn_str e
                              ++ newline) /\
    (In "--headless" (arguments (browser_options (config self)))
     <-> headless (config self) = true) /\
    In ("goog:loggingPrefs", [("performance", "ALL")])
       (capabilities (browser_options (config self))).
Proof.
  destruct (sat_exists _ _ _ _ (setup_browser_spec env self h))
    as (r & self' & evs & E & -> & H).
  destruct (chrome_new env h (browser_options (config self))) as [e|d];
    destruct H as [-> ->]; do 2 eexists; (split; [exact E|]).
  all: split; [intros ? [= <-] || intros ? [=]; auto|].
  all: split; [intros ? [= <-] || intros ? [=]; eauto 10|].
  all: split; [|left; reflexivity].
  all: unfold browser_options; cbn [arguments]; destruct (headless (config self)); cbn.
  all: split; auto; try discriminate.
  all: intros [H|[H|[H|[H|[H|[]]]]]]; try discriminate H.
  all: exfalso; cbv in H; discriminate H.
Qed.

(** X3. A successful [_perform_login] changes no field, had both credentials
    non-empty, and made exactly this sequence: wait for the sign-in link
    and click the element that the wait returned, wait for the user-name
    field and type the user name into the element returned, look up
    [kc-login] and click the element found, wait for the password field and
    type the password into the element returned, look up [kc-login] again
    and click the element found; with one log record after the first click
    and one at the end. *)
Theorem perform_login_success_sequence env self h d self' evs :
  driver self = Some d ->
  _perform_login env self h = (inr tt, self', evs) ->
  self' = self /\
  username (config self) <> EmptyString /\ password (config self) <> EmptyString /\
  exists link ufield submit1 pfield submit2,
    evs = [ECall (CWaitUntil d 10 login_link) None;
           ECall (CClick link) None;
           ELog INFO "Navigated to login page";
           ECall (CWaitUntil d 10 username_field) None;
           ECall (CSendKeys ufield (username (config self))) None;
           ECall (CFindElement d "id" "kc-login") None;
           ECall (CClick submit1) None;
           ECall (CWaitUntil d 10 password_field) None;
           ECall (CSendKeys pfield (password (config self))) None;
           ECall (CFindElement d "id" "kc-login") None;
           ECall (CClick submit2) None;
           ELog INFO "Login sequence completed"] /\
    wait_until env h d 10 login_link = inr link /\
    wait_until env (h ++ List.firstn 3 evs)%list d 10 username_field = inr ufield /\
    find_element env (h ++ List.firstn 5 evs)%list d "id" "kc-login" = inr submit1 /\
    wait_until env (h ++ List.firstn 7 evs)%list d 10 password_field = inr pfield /\
    find_element env (h ++ List.firstn 9 evs)%list d "id" "kc-login" = inr submit2.
Proof.
  intros Hd E.
  destruct (credentials_cases (config self)) as [Hcred|[Hu Hp]].
  { rewrite perform_login_no_credentials in E by exact Hcred. discriminate. }
  assert (Hsat : sat (_perform_login env) self h (fun r s evs =>
            r = inr tt ->
            s = self /\
            exists link ufield submit1 pfield submit2,
              evs = [ECall (CWaitUntil d 10 login_link) None;
           ECall (CClick link) None;
           ELog INFO "Navigated to login page";
           ECall (CWaitUntil d 10 username_field) None;
           ECall (CSendKeys ufield (username (config self))) None;
           ECall (CFindElement d "id" "kc-login") None;
           ECall (CClick submit1) None;
           ECall (CWaitUntil d 10 password_field) None;
           ECall (CSendKeys pfield (password (config self))) None;
           ECall (CFindElement d "id" "kc-login") None;
           ECall (CClick submit2) None;
           ELog INFO "Login sequence completed"] /\
              wait_until env h d 10 login_link = inr link /\
              wait_until env (h ++ List.firstn 3 evs)%list d 10 username_field
              = inr ufield /\
              find_element env (h ++ List.firstn 5 evs)%list d "id" "kc-login"
              = inr submit1 /\
              wait_until env (h ++ List.firstn 7 evs)%list d 10 password_field
              = inr pfield /\
              find_element env (h ++ List.firstn 9 evs)%list d "id" "kc-login"
              = inr submit2)).
  { pose proof Hu as Hu'. pose proof Hp as Hp'.
    apply String.eqb_neq in Hu', Hp'.
    unfold _perform_login. apply sat_bind, sat_get_self. wp_simpl.
    rewrite Hu', Hp'. cbn [orb].
    wp_using Hd.
    all: intros Hr; try discriminate Hr.
    split; [reflexivity|].
    do 5 eexists. split; [reflexivity|].
    cbn [List.firstn]. repeat split; assumption. }
  destruct (sat_run _ _ _ _ _ _ _ Hsat E eq_refl) as [-> Hev]. auto.
Qed.

(** X12. Past its guard, [api_request] gives back what the session's
    [request] gave: the response whatever its status (a 500 is returned,
    not raised), or the exception unchanged.  The events are that one
    request, then an info record with the status, or an error record when
    the exception is a [RequestException], and no record for any other
    exception.  Driver, token and configuration are unchanged. *)
Theorem api_request_passes_through env endpoint method kwargs self h sess tok r jar :
  session self = Some sess -> bearer_token self = Some tok -> tok <> EmptyString ->
  let target := api_base_url (config self) ++ "/" ++ endpoint in
  let hd := match kw_headers kwargs with
            | Some extra => dict_update (fixed_headers (config self) tok) extra
            | None => fixed_headers (config self) tok
            end in
  session_request env h sess method target hd (kw_rest kwargs) = (r, jar) ->
  exists self',
    api_request env endpoint method kwargs self h =
    (r, self',
     ECall (CSessionRequest sess method target hd (kw_rest kwargs)) (raised_by r)
     :: match r with
        | inr resp =>
            [ELog INFO ("API request to " ++ endpoint ++ ": Status "
                        ++ pretty (status_code resp))]
        | inl e =>
            if is_RequestException e
            then [ELog ERROR ("API request failed: " ++ exn_str e)]
            else []
        end) /\
    driver self' = driver self /\ bearer_token self' = bearer_token self /\
    config self' = config self.
Proof.
  intros Hs Ht Hne target hd Hreq.
  assert (Hsat : sat (api_request env endpoint method kwargs) self h (fun r' s evs =>
            r' = r /\
            evs = ECall (CSessionRequest sess method target hd (kw_rest kwargs))
                    (raised_by r)
                  :: match r with
                     | inr resp =>
                         [ELog INFO ("API request to " ++ endpoint ++ ": Status "
                                     ++ pretty (status_code resp))]
                     | inl e =>
                         if is_RequestException e
                         then [ELog ERROR ("API request failed: " ++ exn_str e)]
                         else []
                     end /\
            driver s = driver self /\ bearer_token s = bearer_token self /\
            config s = config self)).
  { unfold api_request. apply sat_bind, sat_get_self. wp_simpl. rewrite Hs, Ht.
    destruct tok as [|c tok]; [congruence|].
    fold target. fold hd.
    apply sat_try_except, sat_bind, sat_session_request_call.
    intros r0 jar0 E0. rewrite Hreq in E0. injection E0 as <- <-.
    wp_simpl. destruct r as [e|resp].
    - destruct (is_RequestException e); wp_all; rewrite ?Ht; auto 10.
    - wp_all. rewrite ?Ht. auto 10. }
  apply sat_exists in Hsat as (r' & s & evs & E & -> & -> & H).
  exists s. split; [exact E|exact H].
Qed.

(** X14. [get_berufsbilder_check] hands at most one request to the session,
    emits nothing but requests and log records (no browser call, no
    output), and leaves driver, token and configuration unchanged. *)
Theorem accessor_issues_at_most_one_request env self h r self' evs :
  get_berufsbilder_check env self h = (r, self', evs) ->
  Forall (fun ev => api_event ev = true) evs /\
  (length (List.filter is_request evs) <= 1)%nat /\
  driver self' = driver self /\ bearer_token self' = bearer_token self /\
  config self' = config self.
Proof.
  intros E. split.
  { exact (sat_run _ _ _ _ _ _ _ (get_berufsbilder_check_emits env self h) E). }
  revert E.
  apply (sat_run (get_berufsbilder_check env) self h
           (fun _ s evs => (length (List.filter is_request evs) <= 1)%nat /\
              driver s = driver self /\ bearer_token s = bearer_token self /\
              config s = config self)).
  unfold get_berufsbilder_check. apply sat_bind.
  assert (Hrest : forall resp s' h' (Q : Exn + Json -> IHKScraper -> Trace -> Prop),
            (forall r evs, Forall (fun ev => log_event ev = true) evs -> Q r s' evs) ->
            sat (if status_code resp =? 200
                 then log INFO "Successfully retrieved berufsbilder data" ;;
                      response_json resp
                 else log ERROR ("API error " ++ pretty (status_code resp) ++ ": "
                                 ++ text resp) ;;
                      raise_for_status resp ;; ret JNull) s' h' Q).
  { intros resp s' h' Q HQ.
    assert (Hs : sat (if status_code resp =? 200
                      then log INFO "Successfully retrieved berufsbilder data" ;;
                           response_json resp
                      else log ERROR ("API error " ++ pretty (status_code resp) ++ ": "
                                      ++ text resp) ;;
                           raise_for_status resp ;; ret JNull) s' h'
                   (fun _ s evs => s = s' /\ Forall (fun ev => log_event ev = true) evs)).
    { unfold response_json, raise_for_status.
      repeat first [wp_prim; wp_simpl | wp_case; wp_simpl
                   | match goal with
                     | |- sat (match ?x with _ => _ end) _ _ _ => destruct x
                     end ].
      all: split; [reflexivity|repeat constructor]. }
    eapply sat_mono; [exact Hs|]. intros r0 s0 evs0 [-> H0]. auto. }
  destruct (session self) as [sess|] eqn:Hs;
    [|unfold sat; rewrite api_request_guard by auto; cbn; auto].
  destruct (bearer_token self) as [tok|] eqn:Ht;
    [|unfold sat; rewrite api_request_guard by auto; cbn; auto].
  destruct (string_dec tok EmptyString) as [->|Hne];
    [unfold sat; rewrite api_request_guard by auto; cbn; auto|].
  eapply sat_mono;
    [exact (api_request_run env "anwender/berufsbilder/check" "GET" no_kwargs
              self h sess tok Hs Ht Hne)|].
  intros r1 s1 ev1 (jar & tail & _ & -> & -> & Htail & _).
  destruct r1 as [e|resp].
  - cbn [List.filter is_request]. rewrite Htail. cbn. rewrite Ht. auto.
  - apply Hrest. intros r2 ev2 H2. cbn [driver bearer_token config].
    rewrite List.filter_app. cbn [List.filter is_request]. rewrite Htail.
    rewrite (filter_disjoint log_event is_request ev2); [|intros [[] ?| |]; cbn; congruence|exact H2].
    cbn. rewrite Ht. auto.
Qed.

(** X15. With driver and session both set, [close] quits the browser first.
    When [quit] raises, the exception leaves [close] and the session is not
    closed; otherwise the session is closed, and an exception of that call
    leaves [close].  Each call that returned is followed by its log record;
    the fields are never changed. *)
Theorem close_quits_before_closing_session env self h d s :
  driver self = Some d -> session self = Some s ->
  close env self h =
  match driver_quit env h d with
  | inl e => (inl e, self, [ECall (CQuit d) (Some e)])
  | inr _ =>
      match session_close env
              (h ++ [ECall (CQuit d) None; ELog INFO "WebDriver closed"])%list s with
      | inl e =>
          (inl e, self,
           [ECall (CQuit d) None; ELog INFO "WebDriver closed";
            ECall (CSessionClose s) (Some e)])
      | inr _ =>
          (inr tt, self,
           [ECall (CQuit d) None; ELog INFO "WebDriver closed";
            ECall (CSessionClose s) None; ELog INFO "Requests session closed"])
      end
  end.
Proof.
  intros Hd Hs.
  assert (Hsat : sat (close env) self h (fun r s' evs =>
    (r, s', evs) =
    match driver_quit env h d with
    | inl e => (inl e, self, [ECall (CQuit d) (Some e)])
    | inr _ =>
        match session_close env
                (h ++ [ECall (CQuit d) None; ELog INFO "WebDriver closed"])%list s with
        | inl e =>
            (inl e, self,
             [ECall (CQuit d) None; ELog INFO "WebDriver closed";
              ECall (CSessionClose s) (Some e)])
        | inr _ =>
            (inr tt, self,
             [ECall (CQuit d) None; ELog INFO "WebDriver closed";
              ECall (CSessionClose s) None; ELog INFO "Requests session closed"])
        end
    end)).
  { unfold close. apply sat_bind, sat_get_self. wp_simpl. rewrite Hd. wp_simpl.
    wp_using Hs; congruence. }
  apply sat_exists in Hsat as (r & s' & evs & E & Heq). rewrite E. exact Heq.
Qed.

(** What [close] raises was raised by one of its teardown calls. *)
Lemma close_raises_teardown_errors env self h :
  sat (close env) self h (fun r _ evs =>
    forall e, r = inl e -> In e (omap teardown_raised evs)).
Proof.
  unfold close. apply sat_bind, sat_get_self. wp_simpl.
  destruct (driver self) as [d|] eqn:Hd, (session self) as [s|] eqn:Hs; wp_simpl.
  all: wp_using Hs.
  all: intros e' [= <-] || (intros e' [=]); cbn; auto.
Qed.

(** The [try ... except] part of [main] raises only what the [print] of its
    handler raised. *)
Lemma main_body_raises_from_handler env self h :
  sat (main_body env) self h (fun r _ evs =>
    forall e, r = inl e ->
      exists e0,
        last evs = Some (EStdout (newline ++ " Error: " ++ exn_str e0) (Some e))).
Proof.
  unfold main_body. apply sat_try_except.
  unfold sat. destruct (bind _ _ _ _) as [[[e0|[]] s1] ev1]; cbn [is_Exception].
  - unfold print_line, print. cbv zeta.
    intros e He. exists e0. rewrite last_snoc, He. reflexivity.
  - intros e [=].
Qed.

(** X16. [main] constructs the scraper before its [try]: when the logging
    setup of the constructor raises, [main] ends with that exception and
    nothing is closed.  Otherwise [main] ends with a run of [close] on the
    scraper as the [try ... except] part left it.  An exception of [close]
    is the result of [main], and it was raised by [quit] or by the
    session's [close] in that run; failing that, the result is that of the
    [try ... except] part, which raises only what the [print] of the error
    handler raised: failures of authentication, of the API call and of the
    prints of the result are caught. *)
Theorem main_exit_paths env h :
  (forall e, setup_logging env h = inl e ->
     main env h = (inl e, __init__ main_config, [ECall CSetupLogging (Some e)])) /\
  (setup_logging env h = inr tt ->
   exists r_body self' body_evs r_close close_evs,
     main_body env (__init__ main_config) (h ++ [ECall CSetupLogging None])%list
     = (r_body, self', body_evs) /\
     close env self' ((h ++ [ECall CSetupLogging None]) ++ body_evs)%list
     = (r_close, self', close_evs) /\
     main env h
     = (match r_close with inl e => inl e | inr _ => r_body end, self',
        ECall CSetupLogging None :: (body_evs ++ close_evs)%list) /\
     (forall e, r_body = inl e ->
        exists e0,
          last body_evs
          = Some (EStdout (newline ++ " Error: " ++ exn_str e0) (Some e))) /\
     (forall e, r_close = inl e -> In e (omap teardown_raised close_evs))).
Proof.
  split.
  - intros e He. unfold main, bind, _setup_logging, extern. cbv zeta. rewrite He.
    reflexivity.
  - intros Hok.
    destruct (sat_exists _ _ _ _
                (main_body_raises_from_handler env (__init__ main_config)
                   (h ++ [ECall CSetupLogging None])%list))
      as (r1 & self1 & ev1 & E1 & Hbody).
    destruct (sat_exists _ _ _ _
                (close_spec env self1 ((h ++ [ECall CSetupLogging None]) ++ ev1)%list))
      as (r2 & self2 & ev2 & E2 & -> & _).
    exists r1, self1, ev1, r2, ev2.
    split; [exact E1|]. split; [exact E2|]. split; [|split].
    + unfold main, bind, _setup_logging, extern, try_finally. cbv zeta.
      rewrite Hok. cbn [raised_by]. rewrite E1, E2.
      destruct r2 as [e|[]]; reflexivity.
    + exact Hbody.
    + exact (sat_run _ _ _ _ _ _ _ (close_raises_teardown_errors env self1 _) E2).
Qed.

Lemma find_append {A} (f : A -> bool) (l1 l2 : list A) :
  List.find f (l1 ++ l2) =
  match List.find f l1 with
  | Some x => Some x
  | None => List.find f l2
  end.
Proof.
  induction l1 as [|a l1 IH]; [reflexivity|]. cbn. destruct (f a); [reflexivity|exact IH].
Qed.

(** The jar that a fold of [jar_set] builds. *)
Lemma fold_jar_set_lookup (cks : list Cookie) : forall (jar : CookieJar) n,
  fold_left (fun jar c => jar_set jar (cookie_name c) (cookie_value c)) cks jar !! n =
  match last_cookie_value n cks with
  | Some v => Some v
  | None => jar !! n
  end.
Proof.
  unfold last_cookie_value.
  induction cks as [|c cks IH]; intros jar n; [reflexivity|].
  cbn [fold_left rev]. rewrite IH, find_append.
  destruct (List.find _ (rev cks)) as [c'|]; [reflexivity|].
  cbn. unfold jar_set. destruct (String.eqb_spec (cookie_name c) n) as [->|Hne]; cbn.
  - apply lookup_insert_eq.
  - apply lookup_insert_ne. exact Hne.
Qed.

(** X6. When the browser reports its cookies, [_setup_session] returns a
    session and changes no field.  In the session's jar a name has the
    value of the last browser cookie of that name, in the form in which the
    jar stores it: a value wrapped in double quotes has lost its
    backslash-quote pairs, any other value is kept as it is.  Every
    reported name is present; when the names are distinct every cookie is
    there with its own stored value, which is its own value unless that is
    wrapped in double quotes. *)
Theorem setup_session_copies_cookies env self h d cks :
  driver self = Some d ->
  get_cookies env h d = inr cks ->
  exists s,
    _setup_session env self h =
    (inr s, self,
     [ECall (CGetCookies d) None;
      ELog INFO "Requests session configured with browser cookies"]) /\
    (forall n, cookies s !! n = last_cookie_value n cks) /\
    (forall c, In c cks -> is_Some (cookies s !! cookie_name c)) /\
    (List.NoDup (map cookie_name cks) ->
     forall c, In c cks ->
       cookies s !! cookie_name c = Some (stored_cookie_value (cookie_value c)) /\
       (starts_with_dquote (cookie_value c) && ends_with_dquote (cookie_value c) = false ->
        cookies s !! cookie_name c = Some (cookie_value c))).
Proof.
  intros Hd Hck.
  assert (Hsat : sat (_setup_session env) self h (fun r s' evs =>
            r = inr {| cookies :=
                         fold_left (fun jar c => jar_set jar (cookie_name c) (cookie_value c))
                           cks ∅ |} /\ s' = self /\
            evs = [ECall (CGetCookies d) None;
                   ELog INFO "Requests session configured with browser cookies"])).
  { unfold _setup_session. apply sat_bind. unfold self_driver.
    apply sat_bind, sat_get_self. wp_simpl. rewrite Hd. apply sat_ret. wp_simpl.
    apply sat_bind, sat_extern. rewrite Hck. wp_all. auto. }
  apply sat_exists in Hsat as (r & s' & evs & E & -> & -> & ->).
  eexists. split; [exact E|]. cbn [cookies].
  assert (Hlook : forall n,
            fold_left (fun jar c => jar_set jar (cookie_name c) (cookie_value c)) cks
              (∅ : CookieJar) !! n = last_cookie_value n cks).
  { intros n. rewrite fold_jar_set_lookup, lookup_empty.
    destruct (last_cookie_value n cks); reflexivity. }
  split; [exact Hlook|]. split.
  - intros c Hin. rewrite Hlook. unfold last_cookie_value.
    destruct (List.find (fun c0 => String.eqb (cookie_name c0) (cookie_name c)) (rev cks))
      as [c'|] eqn:Hf; [cbn; eauto|].
    assert (Hc : In c (rev cks)) by (apply in_rev; rewrite rev_involutive; exact Hin).
    pose proof (find_none _ _ Hf c Hc) as Hno. cbv beta in Hno.
    rewrite String.eqb_refl in Hno. discriminate Hno.
  - intros Hnd c Hin.
    cut (fold_left
           (fun jar c => jar_set jar (cookie_name c) (cookie_value c)) cks
           (∅ : CookieJar) !! cookie_name c
         = Some (stored_cookie_value (cookie_value c))).
    { intros Hc. split; [exact Hc|]. intros Hq. rewrite Hc.
      unfold stored_cookie_value. rewrite Hq. reflexivity. }
    rewrite Hlook. unfold last_cookie_value.
    destruct (List.find (fun c0 => String.eqb (cookie_name c0) (cookie_name c)) (rev cks))
      as [c'|] eqn:Hf.
    + apply find_some in Hf as [Hin' Hname]. apply String.eqb_eq in Hname.
      apply in_rev in Hin'. cbn. f_equal. f_equal. f_equal.
      clear -Hnd Hin Hin' Hname.
      induction cks as [|c0 cks IH]; [destruct Hin|].
      cbn in Hnd. apply List.NoDup_cons_iff in Hnd as [Hnot Hnd].
      destruct Hin as [->|Hin], Hin' as [->|Hin']; auto.
      * exfalso. apply Hnot. rewrite <- Hname. apply in_map. exact Hin'.
      * exfalso. apply Hnot. rewrite Hname. apply in_map. exact Hin.
    + assert (Hc : In c (rev cks)) by (apply in_rev; rewrite rev_involutive; exact Hin).
      pose proof (find_none _ _ Hf c Hc) as Hno. cbv beta in Hno.
      rewrite String.eqb_refl in Hno. discriminate Hno.
Qed.

Lemma sat_and {A} (m : M A) self h (Q1 Q2 : Exn + A -> IHKScraper -> Trace -> Prop) :
  sat m self h Q1 -> sat m self h Q2 ->
  sat m self h (fun r s evs => Q1 r s evs /\ Q2 r s evs).
Proof. unfold sat. destruct (m self h) as [[r s] evs]. auto. Qed.

Lemma navigations_app (a b : Trace) :
  navigations (a ++ b) = (navigations a ++ navigations b)%list.
Proof. apply omap_app. Qed.

Lemma navigations_cons ev (evs : Trace) :
  navigations (ev :: evs) =
  match navigation_of ev with
  | Some target => target :: navigations evs
  | None => navigations evs
  end.
Proof. unfold navigations. cbn. destruct (navigation_of ev); reflexivity. Qed.

Lemma page_events_no_navigation evs :
  Forall (fun ev => page_event ev = true) evs -> navigations evs = [].
Proof.
  apply omap_disjoint. intros [[] ?| |]; cbn; congruence.
Qed.

Lemma search_all_token_chars s tok :
  TokenPattern.search s = Some tok -> TokenPattern.all_token_chars tok = true.
Proof.
  intros H. apply TokenPatternMore.search_sound in H as (? & ? & _ & _ & Hall & _).
  exact Hall.
Qed.

Lemma perform_login_nav env self h :
  sat (_perform_login env) self h (fun r s evs =>
    (s = self /\
     (r = inr tt -> username (config self) <> EmptyString /\
                    password (config self) <> EmptyString)) /\
    navigations evs = []).
Proof.
  apply sat_and.
  - destruct (credentials_cases (config self)) as [Hcred|[Hu Hp]].
    + apply perform_login_no_credentials_sat; [exact Hcred|]. split; [reflexivity|discriminate].
    + pose proof Hu as Hu'. pose proof Hp as Hp'. apply String.eqb_neq in Hu', Hp'.
      unfold _perform_login. apply sat_bind, sat_get_self. wp_simpl.
      rewrite Hu', Hp'. cbn [orb].
      eapply sat_mono with (Q := fun _ s _ => s = self); [|intros; auto].
      destruct (driver self) as [d|] eqn:Hd.
      * wp_using Hd; reflexivity.
      * wp_using Hd; reflexivity.
  - eapply sat_mono; [apply perform_login_emits|]. cbv beta.
    intros _ _ evs. apply page_events_no_navigation.
Qed.

Lemma extract_bearer_token_nav env self h d :
  driver self = Some d ->
  sat (_extract_bearer_token env) self h (fun r s evs =>
    s = self /\
    forall tok, r = inr tok ->
      tok <> EmptyString /\ TokenPattern.all_token_chars tok = true /\
      navigations evs = [base_url (config self) ++ "/service/berufsbilder-check"]).
Proof.
  intros Hd. unfold _extract_bearer_token.
  wp_using Hd; try (split; [reflexivity|intros ? [=]]).
  destruct (TokenPattern.search _) as [tok|] eqn:Hs; wp_all.
  - split; [reflexivity|]. intros ? [= <-]. repeat split.
    + eapply TokenPatternFacts.search_nonempty, Hs.
    + eapply search_all_token_chars, Hs.
  - split; [reflexivity|intros ? [=]].
Qed.

Lemma setup_session_nav env self h d :
  driver self = Some d ->
  sat (_setup_session env) self h (fun r s evs => s = self /\ navigations evs = []).
Proof. intros Hd. unfold _setup_session. wp_using Hd; auto. Qed.

Ltac wp_call_nav :=
  lazymatch goal with
  | |- sat (_perform_login ?env) ?self ?h _ =>
      eapply sat_mono; [apply perform_login_nav|]; intros ? ? ? ((-> & ?) & ?)
  | |- sat (_extract_bearer_token ?env) ?self ?h _ =>
      eapply sat_mono; [eapply extract_bearer_token_nav; reflexivity|];
      intros ? ? ? (-> & ?)
  | |- sat (_setup_session ?env) ?self ?h _ =>
      eapply sat_mono; [eapply setup_session_nav; reflexivity|];
      intros ? ? ? (-> & ?)
  | _ => wp_call
  end.

(** X7. After a successful [authenticate] the configuration is unchanged and
    had both credentials non-empty; driver, session and token are all set,
    the token being non-empty and made of token characters; and the flow
    loaded exactly two pages, in this order: the base URL and the
    [/service/berufsbilder-check] page. *)
Theorem authenticate_success env self h self' evs :
  authenticate env self h = (inr tt, self', evs) ->
  config self' = config self /\
  username (config self) <> EmptyString /\ password (config self) <> EmptyString /\
  (exists d sess tok,
     driver self' = Some d /\ session self' = Some sess /\
     bearer_token self' = Some tok /\
     tok <> EmptyString /\ TokenPattern.all_token_chars tok = true) /\
  navigations evs =
    [base_url (config self); base_url (config self) ++ "/service/berufsbilder-check"].
Proof.
  intros E.
  assert (Hsat : sat (authenticate env) self h (fun r s evs =>
            r = inr tt ->
            config s = config self /\
            username (config self) <> EmptyString /\
            password (config self) <> EmptyString /\
            (exists d sess tok,
               driver s = Some d /\ session s = Some sess /\
               bearer_token s = Some tok /\
               tok <> EmptyString /\ TokenPattern.all_token_chars tok = true) /\
            navigations evs =
              [base_url (config self);
               base_url (config self) ++ "/service/berufsbilder-check"])).
  { unfold authenticate. wp_simpl.
    repeat (first [wp_prim | wp_unfold | wp_call_nav | wp_case]; wp_simpl).
    all: intros Hr; try discriminate Hr.
    all: repeat match goal with
                | u : unit |- _ => destruct u
                | H : inr tt = inr tt -> _ |- _ => specialize (H eq_refl)
                | H : forall tok, inr ?s = inr tok -> _ |- _ =>
                    destruct (H s eq_refl) as (? & ? & ?); clear H
                end.
    all: cbn [config] in *; intuition eauto 10.
    all: repeat rewrite navigations_cons; cbn [navigation_of];
      rewrite !navigations_app;
      repeat match goal with H : navigations _ = _ |- _ => rewrite H end;
      reflexivity. }
  exact (sat_run _ _ _ _ _ _ _ Hsat E eq_refl).
Qed.

(** X4. A token that [_extract_bearer_token] returns stands in the serialized
    performance log right after the first [Bearer ] that is followed by a
    token character: it is non-empty, consists of token characters only,
    and is maximal (what follows it is empty or starts with another
    character). *)
Theorem extracted_token_is_in_the_log env self h d logs tok self' evs :
  driver self = Some d ->
  driver_get env h d (base_url (config self) ++ "/service/berufsbilder-check") = inr tt ->
  get_log env
    (h ++ [ECall (CGet d (base_url (config self) ++ "/service/berufsbilder-check")) None;
           ECall (CSleep 5) None])%list d "performance" = inr logs ->
  _extract_bearer_token env self h = (inr tok, self', evs) ->
  exists pre post,
    json_dumps env logs = pre ++ "Bearer " ++ tok ++ post /\
    tok <> EmptyString /\
    TokenPattern.all_token_chars tok = true /\
    TokenPattern.stops_token post = true /\
    forall pre', TokenPattern.occurs_at pre' (json_dumps env logs) ->
                 (String.length pre <= String.length pre')%nat.
Proof.
  intros Hd Hget Hlog E.
  rewrite (extract_bearer_token_run env self h d logs Hd Hget Hlog) in E. cbv zeta in E.
  destruct (TokenPattern.search (json_dumps env logs)) as [t|] eqn:Hs; [|discriminate].
  injection E as -> _ _.
  exact (TokenPatternMore.search_sound _ _ Hs).
Qed.

Lemma extracted_token_is_in_the_log_witness :
  exists pre post,
    ascii_json_dumps sample_logs_two_tokens = pre ++ "Bearer " ++ "first.tok_1" ++ post /\
    TokenPattern.stops_token post = true.
Proof.
  destruct (extracted_token_is_in_the_log
              (sample_env false sample_logs_two_tokens sample_cookies response_ok)
              sample_self_browser_ready [] 1%nat sample_logs_two_tokens
              "first.tok_1" sample_self_browser_ready
              (snd (_extract_bearer_token
                      (sample_env false sample_logs_two_tokens sample_cookies response_ok)
                      sample_self_browser_ready []))
              eq_refl eq_refl eq_refl)
    as (pre & post & E & _ & _ & Hstop & _).
  - vm_compute. reflexivity.
  - exists pre, post. split; [exact E|exact Hstop].
Defined.

(** X5. On success [_extract_bearer_token] logs the first 15 and the last 15
    characters of the token, as Python's slices give them: each excerpt has
    [min 15 (len token)] characters and is a prefix, respectively a suffix,
    of the token.  A token of at most 15 characters is therefore logged in
    full (twice). *)
Theorem token_log_shows_excerpt env self h d logs tok self' evs :
  driver self = Some d ->
  driver_get env h d (base_url (config self) ++ "/service/berufsbilder-check") = inr tt ->
  get_log env
    (h ++ [ECall (CGet d (base_url (config self) ++ "/service/berufsbilder-check")) None;
           ECall (CSleep 5) None])%list d "performance" = inr logs ->
  _extract_bearer_token env self h = (inr tok, self', evs) ->
  In (ELog INFO ("Bearer token extracted: " ++ py_prefix 15 tok ++ "..."
                 ++ py_suffix 15 tok)) evs /\
  String.length (py_prefix 15 tok) = Nat.min 15 (String.length tok) /\
  String.length (py_suffix 15 tok) = Nat.min 15 (String.length tok) /\
  (exists rest, tok = py_prefix 15 tok ++ rest) /\
  (exists front, tok = front ++ py_suffix 15 tok) /\
  ((String.length tok <= 15)%nat -> py_prefix 15 tok = tok /\ py_suffix 15 tok = tok).
Proof.
  intros Hd Hget Hlog E.
  rewrite (extract_bearer_token_run env self h d logs Hd Hget Hlog) in E. cbv zeta in E.
  destruct (TokenPattern.search (json_dumps env logs)) as [t|] eqn:Hs; [|discriminate].
  injection E as -> _ <-.
  split; [cbn; auto 10|].
  apply token_log_excerpt. lia.
Qed.

Lemma token_log_shows_excerpt_witness :
  In (ELog INFO "Bearer token extracted: abc.def-123_ABC...abc.def-123_ABC")
     (snd (_extract_bearer_token
             (sample_env false sample_logs sample_cookies response_ok)
             sample_self_browser_ready [])).
Proof.
  apply (token_log_shows_excerpt
           (sample_env false sample_logs sample_cookies response_ok)
           sample_self_browser_ready [] 1%nat sample_logs
           "abc.def-123_ABC" sample_self_browser_ready
           (snd (_extract_bearer_token
                   (sample_env false sample_logs sample_cookies response_ok)
                   sample_self_browser_ready []))
           eq_refl eq_refl eq_refl).
  vm_compute. reflexivity.
Defined.

(** X13. The [Authorization] header that [api_request] builds from a
    well-formed token reads back to that token under the pattern with which
    [_extract_bearer_token] finds tokens. *)
Theorem authorization_header_round_trip cfg tok :
  tok <> EmptyString -> TokenPattern.all_token_chars tok = true ->
  exists v,
    fixed_headers cfg tok !! "Authorization" = Some v /\
    TokenPattern.search v = Some tok.
Proof.
  intros Hne Hall. exists ("Bearer " ++ tok). split.
  - apply fixed_headers_lookup.
  - apply TokenPatternMore.search_literal_token; assumption.
Qed.

Lemma authorization_header_round_trip_witness :
  exists v,
    fixed_headers sample_config "abc.def-123_ABC" !! "Authorization" = Some v /\
    TokenPattern.search v = Some "abc.def-123_ABC".
Proof.
  apply (authorization_header_round_trip sample_config "abc.def-123_ABC");
    [discriminate|reflexivity].
Defined.

(** ** Runs on the sample collaborators *)

Lemma authenticate_launches_once_witness :
  launches (snd (after_authenticate
                   (sample_env false sample_logs sample_cookies response_ok)
                   sample_config)) = 1%nat.
Proof.
  apply (authenticate_launches_once
           (sample_env false sample_logs sample_cookies response_ok)
           (__init__ sample_config) [] (inr tt)
           (fst (after_authenticate
                   (sample_env false sample_logs sample_cookies response_ok)
                   sample_config))
           (snd (after_authenticate
                   (sample_env false sample_logs sample_cookies response_ok)
                   sample_config))).
  vm_compute. reflexivity.
Defined.

Lemma authenticate_success_witness :
  navigations (snd (after_authenticate
                      (sample_env false sample_logs sample_cookies response_ok)
                      sample_config))
  = ["https://bildung.ihk.de"; "https://bildung.ihk.de/service/berufsbilder-check"].
Proof.
  apply (authenticate_success
           (sample_env false sample_logs sample_cookies response_ok)
           (__init__ sample_config) []
           (fst (after_authenticate
                   (sample_env false sample_logs sample_cookies response_ok)
                   sample_config))
           (snd (after_authenticate
                   (sample_env false sample_logs sample_cookies response_ok)
                   sample_config))).
  vm_compute. reflexivity.
Defined.

Lemma authenticate_failure_is_logged_and_reraised_witness :
  let e := mkWebDriverException
             ("Browser initialization failed: " ++ exn_str chrome_not_found) in
  exists before shot,
    [ECall (CChrome (browser_options sample_config)) (Some chrome_not_found);
     ELog ERROR ("Failed to initialize WebDriver: " ++ exn_str chrome_not_found);
     ELog ERROR ("Authentication failed: " ++ exn_str e)]
    = (before ++ ELog ERROR ("Authentication failed: " ++ exn_str e) :: shot)%list /\
    _save_error_screenshot sample_env_no_browser (__init__ sample_config)
      ([] ++ before ++ [ELog ERROR ("Authentication failed: " ++ exn_str e)])%list
    = (inr tt, __init__ sample_config, shot).
Proof.
  intros e.
  apply (authenticate_failure_is_logged_and_reraised sample_env_no_browser
           (__init__ sample_config) [] e (__init__ sample_config)).
  vm_compute. reflexivity.
Defined.

Lemma failed_authenticate_keeps_session_witness :
  api_request sample_env_no_browser "anwender/berufsbilder/check" "GET" no_kwargs
    (__init__ sample_config) []
  = (inl not_authenticated, __init__ sample_config, []).
Proof.
  apply (failed_authenticate_keeps_session sample_env_no_browser
           (__init__ sample_config) []
           (mkWebDriverException
              ("Browser initialization failed: " ++ exn_str chrome_not_found))
           (__init__ sample_config)
           [ECall (CChrome (browser_options sample_config)) (Some chrome_not_found);
            ELog ERROR ("Failed to initialize WebDriver: " ++ exn_str chrome_not_found);
            ELog ERROR ("Authentication failed: "
                        ++ exn_str (mkWebDriverException
                                      ("Browser initialization failed: "
                                       ++ exn_str chrome_not_found)))]).
  - vm_compute. reflexivity.
  - reflexivity.
Defined.

Lemma accept_cookies_swallows_only_timeouts_witness :
  exists r evs,
    _accept_cookies sample_env_click_times_out sample_self_browser_ready []
    = (r, sample_self_browser_ready, evs).
Proof.
  destruct (accept_cookies_swallows_only_timeouts sample_env_click_times_out
              sample_self_browser_ready [] 1%nat eq_refl)
    as (r & evs & E & _).
  exists r, evs. exact E.
Defined.

Lemma perform_login_success_sequence_witness :
  snd (_perform_login (sample_env false sample_logs sample_cookies response_ok)
         sample_self_browser_ready [])
  = [ECall (CWaitUntil 1%nat 10 login_link) None;
     ECall (CClick 2%nat) None;
     ELog INFO "Navigated to login page";
     ECall (CWaitUntil 1%nat 10 username_field) None;
     ECall (CSendKeys 2%nat "azubi") None;
     ECall (CFindElement 1%nat "id" "kc-login") None;
     ECall (CClick 3%nat) None;
     ECall (CWaitUntil 1%nat 10 password_field) None;
     ECall (CSendKeys 2%nat "geheim") None;
     ECall (CFindElement 1%nat "id" "kc-login") None;
     ECall (CClick 3%nat) None;
     ELog INFO "Login sequence completed"].
Proof.
  destruct (perform_login_success_sequence
              (sample_env false sample_logs sample_cookies response_ok)
              sample_self_browser_ready [] 1%nat sample_self_browser_ready
              (snd (_perform_login
                      (sample_env false sample_logs sample_cookies response_ok)
                      sample_self_browser_ready [])))
    as (_ & _ & _ & link & ufield & submit1 & pfield & submit2
        & E & Hl & Hu & Hs1 & Hp & Hs2).
  - reflexivity.
  - vm_compute. reflexivity.
  - injection Hl as <-. injection Hu as <-. injection Hs1 as <-.
    injection Hp as <-. injection Hs2 as <-. exact E.
Defined.

Lemma api_request_passes_through_witness :
  exists self' evs,
    api_request (sample_env false sample_logs sample_cookies response_server_error)
      "anwender/berufsbilder/check" "GET" no_kwargs sample_self_authenticated []
    = (inr response_server_error, self', evs).
Proof.
  destruct (api_request_passes_through
              (sample_env false sample_logs sample_cookies response_server_error)
              "anwender/berufsbilder/check" "GET" no_kwargs sample_self_authenticated []
              {| cookies := list_to_map [("a", "1"); ("b", "2")] |}
              "abc.def-123_ABC" (inr response_server_error)
              (list_to_map [("a", "1"); ("b", "2")])
              eq_refl eq_refl ltac:(discriminate) eq_refl)
    as (self' & E & _).
  eauto.
Defined.

Lemma accessor_issues_at_most_one_request_witness :
  (length (List.filter is_request
             (snd (get_berufsbilder_check
                     (sample_env false sample_logs sample_cookies response_ok)
                     sample_self_authenticated []))) <= 1)%nat.
Proof.
  apply (accessor_issues_at_most_one_request
           (sample_env false sample_logs sample_cookies response_ok)
           sample_self_authenticated []
           (inr (JObj []))
           (fst (fst (get_berufsbilder_check
                   (sample_env false sample_logs sample_cookies response_ok)
                   sample_self_authenticated [])),
            snd (fst (get_berufsbilder_check
                   (sample_env false sample_logs sample_cookies response_ok)
                   sample_self_authenticated []))).2
           (snd (get_berufsbilder_check
                   (sample_env false sample_logs sample_cookies response_ok)
                   sample_self_authenticated []))).
  vm_compute. reflexivity.
Defined.

Lemma close_quits_before_closing_session_witness :
  close sample_env_quit_fails sample_self_authenticated []
  = (inl quit_failed, sample_self_authenticated,
     [ECall (CQuit 1%nat) (Some quit_failed)]).
Proof.
  apply (close_quits_before_closing_session sample_env_quit_fails
           sample_self_authenticated [] 1%nat
           {| cookies := list_to_map [("a", "1"); ("b", "2")] |});
    reflexivity.
Defined.

Lemma setup_session_copies_cookies_witness :
  exists s,
    _setup_session (sample_env false sample_logs sample_cookies_repeated response_ok)
      sample_self_browser_ready []
    = (inr s, sample_self_browser_ready,
       [ECall (CGetCookies 1%nat) None;
        ELog INFO "Requests session configured with browser cookies"]) /\
    cookies s !! "a" = Some "3" /\ cookies s !! "b" = Some "2" /\
    cookies s !! "q" = Some (dquote ++ "xy" ++ dquote).
Proof.
  destruct (setup_session_copies_cookies
              (sample_env false sample_logs sample_cookies_repeated response_ok)
              sample_self_browser_ready [] 1%nat sample_cookies_repeated
              eq_refl eq_refl)
    as (s & E & Hlook & _).
  exists s. split; [exact E|]. rewrite !Hlook. repeat split; reflexivity.
Defined.

Lemma main_exit_paths_witness :
  exists self' evs,
    main (sample_env false sample_logs sample_cookies response_ok) []
    = (inr tt, self', evs).
Proof.
  destruct (main_exit_paths
              (sample_env false sample_logs sample_cookies response_ok) [])
    as (_ & Hrun).
  destruct (Hrun eq_refl) as (r1 & self' & ev1 & r2 & ev2 & E1 & E2 & E & _).
  vm_compute in E1. injection E1 as <- <- <-.
  vm_compute in E2. injection E2 as <- <-.
  do 2 eexists. exact E.
Defined.

Lemma save_error_screenshot_never_raises_witness :
  exists evs,
    _save_error_screenshot (sample_env false sample_logs sample_cookies response_ok)
      sample_self_browser_ready []
    = (inr tt, sample_self_browser_ready, evs).
Proof.
  destruct (save_error_screenshot_never_raises
              (sample_env false sample_logs sample_cookies response_ok)
              sample_self_browser_ready [])
    as (evs & E & _).
  eauto.
Defined.

Lemma setup_browser_outcomes_witness :
  exists r o,
    _setup_browser sample_env_no_browser (__init__ sample_config) []
    = (r, __init__ sample_config,
       [ECall (CChrome (browser_options sample_config)) o;
        ELog (match o with Some _ => ERROR | None => INFO end)
             (match o with
              | Some e => "Failed to initialize WebDriver: " ++ exn_str e
              | None => "Chrome WebDriver initialized successfully"
              end)]) /\
    o = Some chrome_not_found.
Proof.
  destruct (setup_browser_outcomes sample_env_no_browser (__init__ sample_config) [])
    as (r & o & E & _ & Hfail & _).
  exists r, o. split; [exact E|]. apply (Hfail chrome_not_found). reflexivity.
Defined.

(** ** Failures of the steps are logged where they occur *)



(** X18. A failed [_extract_bearer_token] changes no field, and the
    exception it ends with is logged once at level ERROR, as the last
    event, with the text [Token extraction failed: ] and its own text;
    this covers the missing token as well as a failing browser call.
    Without a browser the failure is the attribute error of [None.get] and
    that record is the only event. *)
Theorem extract_bearer_token_failure_is_logged env self h e self' evs :
  _extract_bearer_token env self h = (inl e, self', evs) ->
  self' = self /\
  last evs = Some (ELog ERROR ("Token extraction failed: " ++ exn_str e)) /\
  List.filter is_error_record evs
  = [ELog ERROR ("Token extraction failed: " ++ exn_str e)] /\
  (driver self = None -> e = mkAttributeError "get" /\ length evs = 1%nat).
Proof.
  intros E.
  assert (Hsat : sat (_extract_bearer_token env) self h (fun r s evs =>
            s = self /\
            forall e, r = inl e ->
              last evs = Some (ELog ERROR ("Token extraction failed: " ++ exn_str e)) /\
              List.filter is_error_record evs
              = [ELog ERROR ("Token extraction failed: " ++ exn_str e)] /\
              (driver self = None -> e = mkAttributeError "get" /\ length evs = 1%nat))).
  { unfold _extract_bearer_token.
    destruct (driver self) as [d|] eqn:Hd.
    - wp_using Hd.
      all: try (destruct (TokenPattern.search _) as [tok|] eqn:Hs; wp_all).
      all: split; [reflexivity|]; intros e' [= <-] || (intros e' [=]).
      all: repeat split; try reflexivity; discriminate.
    - wp_using Hd.
      all: split; [reflexivity|]; intros e' [= <-] || (intros e' [=]).
      all: repeat split; reflexivity. }
  destruct (sat_run _ _ _ _ _ _ _ Hsat E) as [-> H].
  split; [reflexivity|]. exact (H e eq_refl).
Qed.

Lemma extract_bearer_token_failure_is_logged_witness :
  last (snd (_extract_bearer_token
               (sample_env false sample_logs_no_token sample_cookies response_ok)
               sample_self_browser_ready []))
  = Some (ELog ERROR "Token extraction failed: No bearer token found in performance logs").
Proof.
  apply (extract_bearer_token_failure_is_logged
           (sample_env false sample_logs_no_token sample_cookies response_ok)
           sample_self_browser_ready [] token_not_found sample_self_browser_ready
           (snd (_extract_bearer_token
                   (sample_env false sample_logs_no_token sample_cookies response_ok)
                   sample_self_browser_ready []))).
  vm_compute. reflexivity.
Defined.
